(** * Semantic analysis of grv query expressions

    A shallow embedding of the query-expression processor of grv
    (type conversion of string literals and validation of the parsed
    expression tree), followed by the properties established about it.

    Go's in-place mutation of operand slots is rendered by explicit state
    passing: a function that mutates a [BinaryExpression] takes the node's
    fields and returns the fields after the call.  Expressions are the
    nodes a parser builds: a tree without sharing, whose interface values
    and node pointers are never [nil].  The functions of Go's libraries
    the code calls ([time.Parse], [glob.Compile], [regexp.Compile]) and
    the [Pos] methods the parser declares are variables of the
    development; the module [Env] instantiates them to run the processor
    on concrete queries. *)

From Stdlib Require Import String Ascii List Bool ZArith NArith Lia.
From Stdlib Require Import DecimalString Permutation.
Import ListNotations.

Local Open Scope string_scope.
Local Open Scope list_scope.

Set Implicit Arguments.

(** ** Tokens *)

(** Modelled from the spec: the token kinds are declared by the scanner,
    outside the analysed file.  The analysed code names [QtkCmpGlob] and
    [QtkCmpRegexp] only; the spec lists the logical connectives (AND/OR),
    negation, and the equality, ordering, glob-match and regex-match
    comparisons. *)
Inductive QueryTokenType : Type :=
| QtkInvalid
| QtkWhiteSpace
| QtkEOF
| QtkIdentifier
| QtkNumber
| QtkString
| QtkAnd
| QtkOr
| QtkNot
| QtkCmpEq
| QtkCmpNe
| QtkCmpGt
| QtkCmpGe
| QtkCmpLt
| QtkCmpLe
| QtkCmpGlob
| QtkCmpRegexp
| QtkLparen
| QtkRparen.

Definition QueryTokenType_eq_dec (a b : QueryTokenType) : {a = b} + {a <> b}.
Proof. decide equality. Defined.

(** Modelled from the spec: a source position (line and column, both
    unsigned), declared by the scanner. *)
Record QueryScannerPos : Type := mkPos { line : N; col : N }.

(** Modelled from the spec: a positioned token; [value] is its text. *)
Record QueryToken : Type := mkToken {
  tokenType : QueryTokenType;
  value : string;
  startPos : QueryScannerPos;
  endPos : QueryScannerPos
}.

(** Modelled from the spec: an operator node wraps its token. *)
Record Operator : Type := mkOperator { operator : QueryToken }.

(** ** Field types *)

(** [type FieldType int] with the six [iota] constants of the source. *)
Inductive FieldType : Type :=
| FtInvalid
| FtString
| FtNumber
| FtDate
| FtGlob
| FtRegex.

Definition FieldType_eq_dec (a b : FieldType) : {a = b} + {a <> b}.
Proof. decide equality. Defined.

Definition FieldType_eqb (a b : FieldType) : bool :=
  if FieldType_eq_dec a b then true else false.

(** [type binaryOperatorPosition int] with [bopLeft] and [bopRight]. *)
Inductive binaryOperatorPosition : Type :=
| bopLeft
| bopRight.

Definition binaryOperatorPosition_eq_dec (a b : binaryOperatorPosition) :
  {a = b} + {a <> b}.
Proof. decide equality. Defined.

(** Go maps written as literals are association lists here; [mapLookup]
    is the two-valued index expression [v, ok := m[k]]. *)
Fixpoint mapLookup {K V : Type} (eq_dec : forall a b : K, {a = b} + {a <> b})
         (m : list (K * V)) (k : K) : option V :=
  match m with
  | [] => None
  | (k', v) :: rest => if eq_dec k' k then Some v else mapLookup eq_dec rest k
  end.

Definition fieldTypeNames : list (FieldType * string) :=
  [ (FtInvalid, "Invalid");
    (FtString, "String");
    (FtNumber, "Number");
    (FtDate, "Date");
    (FtGlob, "Glob");
    (FtRegex, "Regex") ].

(** The one-valued index expression [fieldTypeNames[t]]: the zero value
    (the empty string) when the key is absent. *)
Definition fieldTypeName (t : FieldType) : string :=
  match mapLookup FieldType_eq_dec fieldTypeNames t with
  | Some name => name
  | None => ""
  end.

(** ** Operator operand-restriction table *)

Definition operatorAllowedOperandTypes :
  list (QueryTokenType * list (binaryOperatorPosition * list (FieldType * bool))) :=
  [ (QtkCmpGlob,
     [ (bopLeft, [ (FtString, true) ]);
       (bopRight, [ (FtGlob, true) ]) ]);
    (QtkCmpRegexp,
     [ (bopLeft, [ (FtString, true) ]);
       (bopRight, [ (FtRegex, true) ]) ]) ].

Definition isOperandTypeRestricted (op : Operator) : bool :=
  match mapLookup QueryTokenType_eq_dec operatorAllowedOperandTypes
                  (tokenType (operator op)) with
  | Some _ => true
  | None => false
  end.

Definition isValidArgument (op : Operator)
           (operatorPosition : binaryOperatorPosition)
           (operandType : FieldType) : bool :=
  match mapLookup QueryTokenType_eq_dec operatorAllowedOperandTypes
                  (tokenType (operator op)) with
  | None => true
  | Some allowedOperandTypes =>
      match mapLookup binaryOperatorPosition_eq_dec allowedOperandTypes
                      operatorPosition with
      | None => true
      | Some allowedTypes =>
          match mapLookup FieldType_eq_dec allowedTypes operandType with
          | Some _ => true
          | None => false
          end
      end
  end.

(** [for fieldType := range allowedTypes]: the keys of the innermost map
    (every innermost map of the table has a single key, so Go's
    unspecified iteration order cannot show). *)
Definition allowedTypes (op : Operator)
           (operatorPosition : binaryOperatorPosition) : list FieldType :=
  match mapLookup QueryTokenType_eq_dec operatorAllowedOperandTypes
                  (tokenType (operator op)) with
  | None => []
  | Some allowedOperandTypes =>
      match mapLookup binaryOperatorPosition_eq_dec allowedOperandTypes
                      operatorPosition with
      | None => []
      | Some types => map fst types
      end
  end.

(** ** The parts of Go's libraries the analysed code relies on *)

(** A [time.Time] as the calendar fields it was built from and its
    location.  [time.Date] is used by the source on fields read back from
    a successful parse, which are in range, so its normalisation of
    overflowing fields is not modelled. *)
Module time.

Inductive Location : Type := UTC | Local.

Record Time : Type := mkTime {
  Year : Z;
  Month : Z;
  Day : Z;
  Hour : Z;
  Minute : Z;
  Second : Z;
  Nanosecond : Z;
  Loc : Location
}.

Definition Date (year month day hour min sec nsec : Z) (loc : Location) : Time :=
  mkTime year month day hour min sec nsec loc.

End time.

(** A compiled regular expression, represented by the text it reports
    through [String()]. *)
Record Regexp : Type := mkRegexp { Regexp_String : string }.

(** A compiled glob matcher of [github.com/gobwas/glob], represented by
    the pattern it was compiled from. *)
Record Glob : Type := mkGlob { Glob_pattern : string }.

(** The two date patterns only use [\d], literal characters, bounded
    repetition and the anchors; [^...$] without the multi-line flag is a
    match of the whole text, and [\d] is an ASCII digit. *)
Inductive PatternAtom : Type :=
| Digit
| Lit (c : ascii).

Definition isDigit (c : ascii) : bool :=
  (48 <=? nat_of_ascii c)%nat && (nat_of_ascii c <=? 57)%nat.

Fixpoint MatchString (pattern : list PatternAtom) (s : string) : bool :=
  match pattern, s with
  | [], EmptyString => true
  | Digit :: pattern', String c s' => isDigit c && MatchString pattern' s'
  | Lit a :: pattern', String c s' => Ascii.eqb a c && MatchString pattern' s'
  | _, _ => false
  end.

Definition queryDateFormat : string := "2006-01-02".
Definition queryDateTimeFormat : string := "2006-01-02 15:04:05".

(** [^\d{4}-\d{2}-\d{2}$] *)
Definition dateFormatPattern : list PatternAtom :=
  repeat Digit 4 ++ [Lit "-"] ++ repeat Digit 2 ++ [Lit "-"] ++ repeat Digit 2.

(** [^\d{4}-\d{2}-\d{2} \d{2}:\d{2}:\d{2}$] *)
Definition dateTimeFormatPattern : list PatternAtom :=
  repeat Digit 4 ++ [Lit "-"] ++ repeat Digit 2 ++ [Lit "-"] ++ repeat Digit 2
  ++ [Lit " "] ++ repeat Digit 2 ++ [Lit ":"] ++ repeat Digit 2
  ++ [Lit ":"] ++ repeat Digit 2.

(** [fmt.Sprintf] for formats whose only verb is [%v] and whose operands
    are strings (each call of the source passes exactly as many operands
    as the format has verbs). *)
Fixpoint Sprintf (format : string) (args : list string) : string :=
  match format with
  | EmptyString => ""
  | String c rest =>
      match c, rest with
      | "%"%char, String "v"%char rest' =>
          match args with
          | a :: args' => a ++ Sprintf rest' args'
          | [] => "%!v(MISSING)" ++ Sprintf rest' []
          end
      | _, _ => String c (Sprintf rest args)
      end
  end.

(** [%v] of an unsigned integer. *)
Definition formatUint (n : N) : string := NilZero.string_of_uint (N.to_uint n).

(** [strings.Join] *)
Fixpoint Join (elems : list string) (sep : string) : string :=
  match elems with
  | [] => ""
  | [x] => x
  | x :: rest => x ++ sep ++ Join rest sep
  end.

(** ** Expressions *)

(** The node kinds.  The struct declarations of [Identifier],
    [StringLiteral], [NumberLiteral], [ParenExpression], [UnaryExpression]
    and [BinaryExpression] belong to the parser; their fields are the ones
    the analysed code reads. *)
Inductive Expression : Type :=
| Identifier (identifier : QueryToken)
| StringLiteral (value : QueryToken)
| NumberLiteral (value : QueryToken)
| DateLiteral (dateTime : time.Time) (stringTime : QueryToken)
| RegexLiteral (regex : Regexp) (regexString : QueryToken)
| GlobLiteral (glob : Glob) (globString : QueryToken)
| ParenExpression (expression : Expression)
| UnaryExpression (operator : Operator) (expression : Expression)
| BinaryExpression (operator : Operator) (lhs rhs : Expression).

(** The fields of a [BinaryExpression], as the state the conversion
    functions read and update. *)
Record BinaryExpressionFields : Type := mkBinary {
  bOperator : Operator;
  lhs : Expression;
  rhs : Expression
}.

Definition toExpression (b : BinaryExpressionFields) : Expression :=
  BinaryExpression (bOperator b) (lhs b) (rhs b).

(** A [*Expression] pointing into a [BinaryExpression]:
    [&binaryExpression.lhs] or [&binaryExpression.rhs]. *)
Inductive OperandPtr : Type :=
| PtrLhs
| PtrRhs.

(** [*ptr = e] *)
Definition store (ptr : OperandPtr) (e : Expression)
           (b : BinaryExpressionFields) : BinaryExpressionFields :=
  match ptr with
  | PtrLhs => mkBinary (bOperator b) e (rhs b)
  | PtrRhs => mkBinary (bOperator b) (lhs b) e
  end.

(** Modelled from the spec: [BinaryExpression.IsComparison] is declared by
    the parser; a binary expression is either a logical connective
    (AND/OR) or a comparison, and the classification is a property of the
    operator. *)
Definition IsComparison (op : Operator) : bool :=
  match tokenType (operator op) with
  | QtkAnd | QtkOr => false
  | _ => true
  end.

(** *** Capabilities (Go interfaces satisfied by method sets) *)

(** [e.(LogicalExpression)]: the node kinds with [ConvertTypes] and
    [Validate]. *)
Definition isLogicalExpression (e : Expression) : bool :=
  match e with
  | ParenExpression _ | UnaryExpression _ _ | BinaryExpression _ _ _ => true
  | _ => false
  end.

(** [e.(ValidatableExpression)]: the node kinds with [Validate]. *)
Definition isValidatableExpression (e : Expression) : bool :=
  match e with
  | Identifier _
  | ParenExpression _ | UnaryExpression _ _ | BinaryExpression _ _ _ => true
  | _ => false
  end.

(** [e.(TypeDescriptor)]: the node kinds with [FieldType]. *)
Definition isTypeDescriptor (e : Expression) : bool :=
  match e with
  | Identifier _ | StringLiteral _ | NumberLiteral _
  | DateLiteral _ _ | RegexLiteral _ _ | GlobLiteral _ _ => true
  | _ => false
  end.

(** The type assertions to a pointer to [Identifier] and to a pointer to
    [StringLiteral]: the token of the node, or [nil]. *)
Definition asIdentifier (e : Expression) : option QueryToken :=
  match e with
  | Identifier tok => Some tok
  | _ => None
  end.

Definition asStringLiteral (e : Expression) : option QueryToken :=
  match e with
  | StringLiteral tok => Some tok
  | _ => None
  end.

(** [reflect.TypeOf(e).Elem().Name()] *)
Definition typeName (e : Expression) : string :=
  match e with
  | Identifier _ => "Identifier"
  | StringLiteral _ => "StringLiteral"
  | NumberLiteral _ => "NumberLiteral"
  | DateLiteral _ _ => "DateLiteral"
  | RegexLiteral _ _ => "RegexLiteral"
  | GlobLiteral _ _ => "GlobLiteral"
  | ParenExpression _ => "ParenExpression"
  | UnaryExpression _ _ => "UnaryExpression"
  | BinaryExpression _ _ _ => "BinaryExpression"
  end.

(** The field-type oracle: [FieldType(fieldName) (fieldType, fieldExists)]. *)
Definition FieldTypeDescriptor : Type := string -> FieldType * bool.

(** The [FieldType] methods; on a node kind without the method the result
    is the zero value, which [determineFieldType] never asks for. *)
Definition Expression_FieldType (e : Expression)
           (fieldTypeDescriptor : FieldTypeDescriptor) : FieldType :=
  match e with
  | DateLiteral _ _ => FtDate
  | RegexLiteral _ _ => FtRegex
  | GlobLiteral _ _ => FtGlob
  | StringLiteral _ => FtString
  | NumberLiteral _ => FtNumber
  | Identifier identifier =>
      let '(fieldType, fieldExists) := fieldTypeDescriptor (value identifier) in
      if fieldExists then fieldType else FtInvalid
  | _ => FtInvalid
  end.

Definition determineFieldType (expression : Expression)
           (fieldTypeDescriptor : FieldTypeDescriptor) : FieldType * bool :=
  if isTypeDescriptor expression
  then (Expression_FieldType expression fieldTypeDescriptor, true)
  else (FtInvalid, false).

Definition fieldTypeNamesString (fieldTypes : list FieldType) : string :=
  Join (flat_map (fun fieldType =>
                    match mapLookup FieldType_eq_dec fieldTypeNames fieldType with
                    | Some fieldTypeName => [fieldTypeName]
                    | None => []
                    end) fieldTypes) ", ".

Definition error : Type := string.

(** ** The processor *)

Record ExpressionProcessor : Type := NewExpressionProcessor {
  ep_expression : Expression;
  ep_fieldTypeDescriptor : FieldTypeDescriptor
}.

Section Analysis.

(** [time.Parse layout value], [glob.Compile] and [regexp.Compile]:
    [None] is a non-nil [err]. *)
Variable time_Parse : string -> string -> option time.Time.
Variable glob_Compile : string -> option Glob.
Variable regexp_Compile : string -> option Regexp.

(** The [Pos] methods the parser declares (identifiers, string and
    number literals, parenthesised, unary and binary expressions). *)
Variable parserPos : Expression -> QueryScannerPos.

Definition Pos (e : Expression) : QueryScannerPos :=
  match e with
  | DateLiteral _ stringTime => startPos stringTime
  | RegexLiteral _ regexString => startPos regexString
  | GlobLiteral _ globString => startPos globString
  | _ => parserPos e
  end.

Definition GenerateExpressionError (expression : Expression)
           (errorMessage : string) (args : list string) : error :=
  (Sprintf "%v:%v: " [formatUint (line (Pos expression));
                      formatUint (col (Pos expression))]
   ++ Sprintf errorMessage args)%string.

(** *** Type conversion *)

Definition isDateComparison (b : BinaryExpressionFields)
           (fieldTypeDescriptor : FieldTypeDescriptor)
  : bool * option QueryToken * option OperandPtr :=
  let '(identifier, dateString, datePtr) :=
    match asIdentifier (lhs b) with
    | Some identifier => (Some identifier, asStringLiteral (rhs b), Some PtrRhs)
    | None => (asIdentifier (rhs b), asStringLiteral (lhs b), Some PtrLhs)
    end in
  match identifier, dateString with
  | Some identifier, Some _ =>
      let '(fieldType, fieldExists) := fieldTypeDescriptor (value identifier) in
      if negb fieldExists || negb (FieldType_eqb fieldType FtDate)
      then (false, dateString, datePtr)
      else (true, dateString, datePtr)
  | _, _ => (false, dateString, datePtr)
  end.

Definition processDateComparison (b : BinaryExpressionFields)
           (fieldTypeDescriptor : FieldTypeDescriptor) : BinaryExpressionFields :=
  match isDateComparison b fieldTypeDescriptor with
  | (true, Some dateString, Some datePtr) =>
      let dateFormat :=
        if MatchString dateFormatPattern (value dateString)
        then Some queryDateFormat
        else if MatchString dateTimeFormatPattern (value dateString)
             then Some queryDateTimeFormat
             else None in
      match dateFormat with
      | None => b
      | Some dateFormat =>
          match time_Parse dateFormat (value dateString) with
          | None => b
          | Some utcDateTime =>
              let dateTime :=
                time.Date (time.Year utcDateTime) (time.Month utcDateTime)
                          (time.Day utcDateTime) (time.Hour utcDateTime)
                          (time.Minute utcDateTime) (time.Second utcDateTime)
                          (time.Nanosecond utcDateTime) time.Local in
              store datePtr (DateLiteral dateTime dateString) b
          end
      end
  | _ => b
  end.

Definition isGlobComparison (b : BinaryExpressionFields)
           (fieldTypeDescriptor : FieldTypeDescriptor)
  : bool * option QueryToken * option OperandPtr :=
  if QueryTokenType_eq_dec (tokenType (operator (bOperator b))) QtkCmpGlob then
    let '(identifier, globString, globPtr) :=
      match asIdentifier (lhs b) with
      | Some identifier => (Some identifier, asStringLiteral (rhs b), Some PtrRhs)
      | None => (asIdentifier (rhs b), asStringLiteral (lhs b), Some PtrLhs)
      end in
    match identifier, globString with
    | Some identifier, Some _ =>
        let '(fieldType, fieldExists) := fieldTypeDescriptor (value identifier) in
        if negb fieldExists || negb (FieldType_eqb fieldType FtString)
        then (false, globString, globPtr)
        else (true, globString, globPtr)
    | _, _ => (false, globString, globPtr)
    end
  else (false, None, None).

Definition processGlobComparison (b : BinaryExpressionFields)
           (fieldTypeDescriptor : FieldTypeDescriptor) : BinaryExpressionFields :=
  match isGlobComparison b fieldTypeDescriptor with
  | (true, Some globString, Some globPtr) =>
      match glob_Compile (value globString) with
      | None => b
      | Some glob => store globPtr (GlobLiteral glob globString) b
      end
  | _ => b
  end.

Definition isRegexComparison (b : BinaryExpressionFields)
           (fieldTypeDescriptor : FieldTypeDescriptor)
  : bool * option QueryToken * option OperandPtr :=
  if QueryTokenType_eq_dec (tokenType (operator (bOperator b))) QtkCmpRegexp then
    let '(identifier, regexString, regexPtr) :=
      match asIdentifier (lhs b) with
      | Some identifier => (Some identifier, asStringLiteral (rhs b), Some PtrRhs)
      | None => (asIdentifier (rhs b), asStringLiteral (lhs b), Some PtrLhs)
      end in
    match identifier, regexString with
    | Some identifier, Some _ =>
        let '(fieldType, fieldExists) := fieldTypeDescriptor (value identifier) in
        if negb fieldExists || negb (FieldType_eqb fieldType FtString)
        then (false, regexString, regexPtr)
        else (true, regexString, regexPtr)
    | _, _ => (false, regexString, regexPtr)
    end
  else (false, None, None).

Definition processRegexComparison (b : BinaryExpressionFields)
           (fieldTypeDescriptor : FieldTypeDescriptor) : BinaryExpressionFields :=
  match isRegexComparison b fieldTypeDescriptor with
  | (true, Some regexString, Some regexPtr) =>
      match regexp_Compile (value regexString) with
      | None => b
      | Some regex => store regexPtr (RegexLiteral regex regexString) b
      end
  | _ => b
  end.

(** The three inferences a comparison goes through, in the order of the
    source. *)
Definition convertComparison (b : BinaryExpressionFields)
           (fieldTypeDescriptor : FieldTypeDescriptor) : BinaryExpressionFields :=
  let b1 := processDateComparison b fieldTypeDescriptor in
  let b2 := processGlobComparison b1 fieldTypeDescriptor in
  processRegexComparison b2 fieldTypeDescriptor.

(** [ConvertTypes] of the three logical node kinds; the result is the
    node after the call.  A node kind without the method is never
    called (every call is guarded by the assertion to
    [LogicalExpression]) and is returned as it is. *)
Fixpoint ConvertTypes (e : Expression)
         (fieldTypeDescriptor : FieldTypeDescriptor) : Expression :=
  match e with
  | ParenExpression expression =>
      ParenExpression
        (if isLogicalExpression expression
         then ConvertTypes expression fieldTypeDescriptor
         else expression)
  | UnaryExpression op expression =>
      UnaryExpression op
        (if isLogicalExpression expression
         then ConvertTypes expression fieldTypeDescriptor
         else expression)
  | BinaryExpression op l r =>
      if negb (IsComparison op) then
        BinaryExpression op
          (if isLogicalExpression l
           then ConvertTypes l fieldTypeDescriptor else l)
          (if isLogicalExpression r
           then ConvertTypes r fieldTypeDescriptor else r)
      else
        toExpression (convertComparison (mkBinary op l r) fieldTypeDescriptor)
  | _ => e
  end.

(** *** Validation *)

Section Validation.

(** The validation walk, for any way [mkError] of building a
    diagnostic from the node, the message format and its operands.
    [Validate] below is the walk with [GenerateExpressionError]. *)
Variable E : Type.
Variable mkError : Expression -> string -> list string -> E.

Fixpoint ValidateWith (e : Expression)
         (fieldTypeDescriptor : FieldTypeDescriptor) : list E :=
  match e with
  | Identifier identifier =>
      if negb (snd (fieldTypeDescriptor (value identifier)))
      then [mkError e "Invalid field: %v" [value identifier]]
      else []
  | ParenExpression expression =>
      (if negb (isLogicalExpression expression)
       then [mkError e "Expression in parentheses must resolve to a boolean value" []]
       else [])
      ++ (if isValidatableExpression expression
          then ValidateWith expression fieldTypeDescriptor
          else [])
  | UnaryExpression op expression =>
      (if negb (isLogicalExpression expression)
       then [mkError e "%v operator can only be applied to expressions that resolve to a boolean value"
                     [value (operator op)]]
       else [])
      ++ (if isValidatableExpression expression
          then ValidateWith expression fieldTypeDescriptor
          else [])
  | BinaryExpression op l r =>
      if negb (IsComparison op) then
        (if negb (isLogicalExpression l)
         then [mkError e "Operands of a logical operator must resolve to boolean values" []]
         else ValidateWith l fieldTypeDescriptor)
        ++ (if negb (isLogicalExpression r)
            then [mkError e "Operands of a logical operator must resolve to boolean values" []]
            else ValidateWith r fieldTypeDescriptor)
      else
        let errors :=
          (if isValidatableExpression l
           then ValidateWith l fieldTypeDescriptor else [])
          ++ (if isValidatableExpression r
              then ValidateWith r fieldTypeDescriptor else []) in
        let '(lhsType, isLHSValueType) := determineFieldType l fieldTypeDescriptor in
        let '(rhsType, isRHSValueType) := determineFieldType r fieldTypeDescriptor in
        if negb (isLHSValueType && isRHSValueType) then
          errors ++ [mkError e "Comparison expressions must compare value types" []]
        else if isOperandTypeRestricted op then
          if negb (FieldType_eqb lhsType FtInvalid || FieldType_eqb rhsType FtInvalid) then
            let errors :=
              if negb (isValidArgument op bopLeft lhsType)
              then errors ++
                   [mkError e "Argument on LHS has invalid type: %v. Allowed types are: %v"
                            [fieldTypeName lhsType;
                             fieldTypeNamesString (allowedTypes op bopLeft)]]
              else errors in
            if negb (isValidArgument op bopRight rhsType)
            then errors ++
                 [mkError e "Argument on RHS has invalid type: %v. Allowed types are: %v"
                          [fieldTypeName rhsType;
                           fieldTypeNamesString (allowedTypes op bopRight)]]
            else errors
          else errors
        else if negb (FieldType_eqb lhsType rhsType)
                && negb (FieldType_eqb lhsType FtInvalid || FieldType_eqb rhsType FtInvalid)
        then errors ++
             [mkError e "Attempting to compare different types - LHS Type: %v vs RHS Type: %v"
                      [fieldTypeName lhsType; fieldTypeName rhsType]]
        else errors
  | _ => []
  end.

End Validation.

Definition Validate (e : Expression)
           (fieldTypeDescriptor : FieldTypeDescriptor) : list error :=
  ValidateWith GenerateExpressionError e fieldTypeDescriptor.

(** [Process]: the processor after the call (its tree is converted in
    place), and the two results.  The named result [expression] is only
    assigned on the logical branch; elsewhere it keeps its zero value
    [nil]. *)
Definition Process (expressionProcessor : ExpressionProcessor)
  : ExpressionProcessor * (option Expression * list error) :=
  let fieldTypeDescriptor := ep_fieldTypeDescriptor expressionProcessor in
  if isLogicalExpression (ep_expression expressionProcessor) then
    let logicalExpression :=
      ConvertTypes (ep_expression expressionProcessor) fieldTypeDescriptor in
    let errors := Validate logicalExpression fieldTypeDescriptor in
    (NewExpressionProcessor logicalExpression fieldTypeDescriptor,
     (Some logicalExpression, errors))
  else
    (expressionProcessor,
     (None,
      [Sprintf "Expected logical expression but received expression of type %v"
               [typeName (ep_expression expressionProcessor)]])).

End Analysis.

(** The kind of a diagnostic is the message format it was generated
    from; [DiagnosticKinds] is the validation walk recording only that. *)
Definition DiagnosticKinds (e : Expression)
           (fieldTypeDescriptor : FieldTypeDescriptor) : list string :=
  ValidateWith (fun _ errorMessage _ => errorMessage) e fieldTypeDescriptor.

(** ** A concrete environment for running the processor *)

Module Env.

Definition digitValue (c : ascii) : Z := Z.of_nat (nat_of_ascii c) - 48.

Fixpoint atoi (s : string) (acc : Z) : Z :=
  match s with
  | EmptyString => acc
  | String c s' => atoi s' (acc * 10 + digitValue c)
  end.

Definition isLeap (year : Z) : bool :=
  (year mod 4 =? 0)%Z && (negb (year mod 100 =? 0)%Z || (year mod 400 =? 0)%Z).

Definition daysIn (month year : Z) : Z :=
  if (month =? 2)%Z && isLeap year then 29%Z
  else nth (Z.to_nat month) [0; 31; 28; 31; 30; 31; 30; 31; 31; 30; 31; 30; 31]%Z 0%Z.

Definition validDate (year month day hour min sec : Z) : bool :=
  (1 <=? month)%Z && (month <=? 12)%Z
  && (1 <=? day)%Z && (day <=? daysIn month year)%Z
  && (hour <? 24)%Z && (min <? 60)%Z && (sec <? 60)%Z.

Definition field (value : string) (start len : nat) : Z :=
  atoi (substring start len value) 0.

(** [time.Parse] on the two layouts of the query language, for values
    of the layout's shape: the fields are read at their fixed offsets
    and range-checked (month, day of the month, hour, minute, second);
    the result is in UTC. *)
Definition time_Parse (layout value : string) : option time.Time :=
  if String.eqb layout queryDateFormat then
    if MatchString dateFormatPattern value then
      let year := field value 0 4 in
      let month := field value 5 2 in
      let day := field value 8 2 in
      if validDate year month day 0 0 0
      then Some (time.mkTime year month day 0 0 0 0 time.UTC)
      else None
    else None
  else if String.eqb layout queryDateTimeFormat then
    if MatchString dateTimeFormatPattern value then
      let year := field value 0 4 in
      let month := field value 5 2 in
      let day := field value 8 2 in
      let hour := field value 11 2 in
      let min := field value 14 2 in
      let sec := field value 17 2 in
      if validDate year month day hour min sec
      then Some (time.mkTime year month day hour min sec 0 time.UTC)
      else None
    else None
  else None.

(** Stand-ins for the two pattern compilers: a pattern is rejected
    when it has an unclosed bracket (glob) or an unclosed parenthesis
    (regular expression), and compiled otherwise. *)
Fixpoint balanced (opening closing : ascii) (s : string) (depth : nat) : bool :=
  match s with
  | EmptyString => Nat.eqb depth 0
  | String c s' =>
      if Ascii.eqb c opening then balanced opening closing s' (S depth)
      else if Ascii.eqb c closing then
             match depth with
             | O => false
             | S d => balanced opening closing s' d
             end
           else balanced opening closing s' depth
  end.

Definition glob_Compile (pattern : string) : option Glob :=
  if balanced "[" "]" pattern 0 then Some (mkGlob pattern) else None.

Definition regexp_Compile (expr : string) : option Regexp :=
  if balanced "(" ")" expr 0 then Some (mkRegexp expr) else None.

(** One assignment of positions to the parser's node kinds: a leaf is
    where its token starts, a parenthesised expression where its
    content is, a unary expression at its operator and a binary
    expression at its operator. *)
Fixpoint parserPos (e : Expression) : QueryScannerPos :=
  match e with
  | Identifier tok | StringLiteral tok | NumberLiteral tok => startPos tok
  | DateLiteral _ tok | RegexLiteral _ tok | GlobLiteral _ tok => startPos tok
  | ParenExpression inner => parserPos inner
  | UnaryExpression op _ => startPos (operator op)
  | BinaryExpression op _ _ => startPos (operator op)
  end.

Definition ConvertTypes := ConvertTypes time_Parse glob_Compile regexp_Compile.
Definition Validate := Validate parserPos.
Definition Process := Process time_Parse glob_Compile regexp_Compile parserPos.

(** Tokens and an oracle for the examples. *)
Definition tok (t : QueryTokenType) (text : string) (column : N) : QueryToken :=
  mkToken t text (mkPos 1 column) (mkPos 1 (column + N.of_nat (String.length text) - 1)).

Definition oracle : FieldTypeDescriptor :=
  fun fieldName =>
    if String.eqb fieldName "name" then (FtString, true)
    else if String.eqb fieldName "created" then (FtDate, true)
    else if String.eqb fieldName "count" then (FtNumber, true)
    else (FtInvalid, false).

(** The tokens of the example queries (all on line 1). *)
Definition createdTok : QueryToken := tok QtkIdentifier "created" 1.
Definition nameTok : QueryToken := tok QtkIdentifier "name" 1.
Definition unknownTok : QueryToken := tok QtkIdentifier "nope" 1.
Definition dateTok : QueryToken := tok QtkString "2021-01-01" 12.
Definition badDateTok : QueryToken := tok QtkString "2021-13-01" 12.
Definition globTok : QueryToken := tok QtkString "a*" 11.
Definition literalTok : QueryToken := tok QtkString "literal" 11.
Definition opEq : Operator := mkOperator (tok QtkCmpEq "=" 9).
Definition opGe : Operator := mkOperator (tok QtkCmpGe ">=" 9).
Definition opGlob : Operator := mkOperator (tok QtkCmpGlob "GLOB" 6).
Definition opAnd : Operator := mkOperator (tok QtkAnd "AND" 6).
Definition opRegexp : Operator := mkOperator (tok QtkCmpRegexp "REGEXP" 6).
Definition countTok : QueryToken := tok QtkIdentifier "count" 1.
Definition numberTok : QueryToken := tok QtkNumber "5" 11.
Definition badRegexTok : QueryToken := tok QtkString "(a" 13.

(** An oracle that differs from [oracle] on a field the examples do not
    name. *)
Definition otherOracle : FieldTypeDescriptor :=
  fun fieldName =>
    if String.eqb fieldName "author" then (FtString, true) else oracle fieldName.

End Env.


(** ** General helpers *)

Definition Min (x y : Z) : Z := if (x <? y)%Z then x else y.

Section MachineIntegers.

(** The size in bits of [int] and [uint] (32 or 64, by platform). *)
Variable intSize : Z.

(** A mathematical integer as the [int] (two's complement) and as the
    [uint] with the same low bits. *)
Definition toInt (z : Z) : Z :=
  ((z + 2 ^ (intSize - 1)) mod 2 ^ intSize - 2 ^ (intSize - 1))%Z.

Definition toUint (z : Z) : Z := (z mod 2 ^ intSize)%Z.

(** [Abs]: [-x] is computed in [int], the result converted to [uint]. *)
Definition Abs (x : Z) : Z :=
  let x := if (x <? 0)%Z then toInt (- x) else x in
  toUint x.

End MachineIntegers.

(** *** Runes and their UTF-8 encoding *)

Definition RuneError : Z := 0xFFFD.
Definition MaxRune : Z := 0x10FFFF.

(** The conversions [byte(x)], [uint32(x)], [uint64(x)] and [int32(x)]. *)
Definition byte (x : Z) : Z := Z.land x 0xFF.
Definition uint32 (x : Z) : Z := (x mod 2 ^ 32)%Z.
Definition uint64 (x : Z) : Z := (x mod 2 ^ 64)%Z.
Definition int32 (x : Z) : Z := ((x + 2 ^ 31) mod 2 ^ 32 - 2 ^ 31)%Z.

(** A string from its bytes. *)
Definition bytesToString (bytes : list Z) : string :=
  string_of_list_ascii (map (fun b => ascii_of_N (Z.to_N b)) bytes).

(** The UTF-8 encoding of a rune, as [utf8.AppendRune] and the
    conversion [string(r)] produce it: one to four bytes, an invalid rune
    (negative, a surrogate, beyond [MaxRune]) being encoded as
    [RuneError]. *)
Definition encodeRune (r : Z) : string :=
  let i := uint32 r in
  if (i <=? 0x7F)%Z then bytesToString [byte r]
  else if (i <=? 0x7FF)%Z then
    bytesToString [Z.lor 0xC0 (byte (Z.shiftr r 6));
                   Z.lor 0x80 (Z.land (byte r) 0x3F)]
  else
    let invalid := (MaxRune <? i)%Z || ((0xD800 <=? i)%Z && (i <=? 0xDFFF)%Z) in
    let r := if invalid then RuneError else r in
    if invalid || (i <=? 0xFFFF)%Z then
      bytesToString [Z.lor 0xE0 (byte (Z.shiftr r 12));
                     Z.lor 0x80 (Z.land (byte (Z.shiftr r 6)) 0x3F);
                     Z.lor 0x80 (Z.land (byte r) 0x3F)]
    else
      bytesToString [Z.lor 0xF0 (byte (Z.shiftr r 18));
                     Z.lor 0x80 (Z.land (byte (Z.shiftr r 12)) 0x3F);
                     Z.lor 0x80 (Z.land (byte (Z.shiftr r 6)) 0x3F);
                     Z.lor 0x80 (Z.land (byte r) 0x3F)].

(** The verb [%c] of [fmt] on an integer operand, received as a
    [uint64]. *)
Definition fmtC (c : Z) : string :=
  encodeRune (if (MaxRune <? c)%Z then RuneError else c).

(** [nonPrintableCharString]; the rune is an [int32]. *)
Definition nonPrintableCharString (codePoint : Z) : string :=
  if (codePoint <? 32)%Z then ("^" ++ fmtC (uint64 (int32 (codePoint + 64))))%string
  else if (codePoint =? 127)%Z then "^?"
  else encodeRune codePoint.

(** A byte of a string that is an ASCII control character (below 32, or
    127). *)
Definition isControlByte (c : ascii) : bool :=
  (N_of_ascii c <? 32)%N || (N_of_ascii c =? 127)%N.

(** The integers [0 .. n-1]. *)
Definition upto (n : nat) : list Z := map Z.of_nat (seq 0 n).

(** ** Methods of the glob literal *)



(** ** Vocabulary of the properties *)

(** A comparison's operands exchanged. *)
Definition swapOperands (b : BinaryExpressionFields) : BinaryExpressionFields :=
  mkBinary (bOperator b) (rhs b) (lhs b).

Definition swapPtr (p : OperandPtr) : OperandPtr :=
  match p with
  | PtrLhs => PtrRhs
  | PtrRhs => PtrLhs
  end.

(** The operand a pointer designates. *)
Definition load (p : OperandPtr) (b : BinaryExpressionFields) : Expression :=
  match p with
  | PtrLhs => lhs b
  | PtrRhs => rhs b
  end.

(** The field/literal shape shared by the three inferences: an identifier
    on one side and a string literal on the other, with the slot of the
    string literal. *)
Definition candidate (b : BinaryExpressionFields)
  : option (QueryToken * QueryToken * OperandPtr) :=
  match lhs b, rhs b with
  | Identifier identifier, StringLiteral s => Some (identifier, s, PtrRhs)
  | StringLiteral s, Identifier identifier => Some (identifier, s, PtrLhs)
  | _, _ => None
  end.

(** The oracle knows the field and reports the type [t] for it. *)
Definition fieldHasType (fieldTypeDescriptor : FieldTypeDescriptor)
           (identifier : QueryToken) (t : FieldType) : bool :=
  let '(fieldType, fieldExists) := fieldTypeDescriptor (value identifier) in
  fieldExists && FieldType_eqb fieldType t.

(** A date/time read in UTC, taken as the same calendar fields in the
    local zone. *)
Definition inLocal (utc : time.Time) : time.Time :=
  time.Date (time.Year utc) (time.Month utc) (time.Day utc) (time.Hour utc)
            (time.Minute utc) (time.Second utc) (time.Nanosecond utc) time.Local.

(** [lit] is a date, glob or regex literal that carries the token [tok]. *)
Inductive TypedLiteralOf (tok : QueryToken) : Expression -> Prop :=
| TypedDate : forall dateTime, TypedLiteralOf tok (DateLiteral dateTime tok)
| TypedGlob : forall glob, TypedLiteralOf tok (GlobLiteral glob tok)
| TypedRegex : forall regex, TypedLiteralOf tok (RegexLiteral regex tok).

(** [Coerced e e']: [e'] is [e] except that, in comparisons reached from
    the root through parentheses, negations and logical connectives only,
    one operand that was a string literal may have been replaced by a
    typed literal carrying the same token. *)
Inductive Coerced : Expression -> Expression -> Prop :=
| CoercedSame : forall e, Coerced e e
| CoercedParen : forall e e',
    Coerced e e' -> Coerced (ParenExpression e) (ParenExpression e')
| CoercedUnary : forall op e e',
    Coerced e e' -> Coerced (UnaryExpression op e) (UnaryExpression op e')
| CoercedLogical : forall op l l' r r',
    IsComparison op = false ->
    Coerced l l' -> Coerced r r' ->
    Coerced (BinaryExpression op l r) (BinaryExpression op l' r')
| CoercedLhs : forall op tok lit r,
    IsComparison op = true ->
    TypedLiteralOf tok lit ->
    Coerced (BinaryExpression op (StringLiteral tok) r) (BinaryExpression op lit r)
| CoercedRhs : forall op l tok lit,
    IsComparison op = true ->
    TypedLiteralOf tok lit ->
    Coerced (BinaryExpression op l (StringLiteral tok)) (BinaryExpression op l lit).

(** What [Validate] appends for an operand of a comparison: the
    operand's own diagnostics when it can be validated. *)
Definition operandDiagnosticsWith (E : Type)
           (mkError : Expression -> string -> list string -> E)
           (e : Expression) (fieldTypeDescriptor : FieldTypeDescriptor) : list E :=
  if isValidatableExpression e then ValidateWith mkError e fieldTypeDescriptor else [].

(** [SubExpression s e]: the node [s] occurs in the tree [e]. *)
Inductive SubExpression (s : Expression) : Expression -> Prop :=
| SubHere : SubExpression s s
| SubParen : forall e, SubExpression s e -> SubExpression s (ParenExpression e)
| SubUnary : forall op e, SubExpression s e -> SubExpression s (UnaryExpression op e)
| SubLhs : forall op l r, SubExpression s l -> SubExpression s (BinaryExpression op l r)
| SubRhs : forall op l r, SubExpression s r -> SubExpression s (BinaryExpression op l r).

(** The field names the identifiers of a tree refer to. *)
Fixpoint fieldNames (e : Expression) : list string :=
  match e with
  | Identifier identifier => [value identifier]
  | ParenExpression inner => fieldNames inner
  | UnaryExpression _ inner => fieldNames inner
  | BinaryExpression _ l r => fieldNames l ++ fieldNames r
  | _ => []
  end.

(** [ValueOf ftd e t]: [e] denotes a value of type [t], as a literal or
    as an identifier of a field the oracle knows. *)
Inductive ValueOf (fieldTypeDescriptor : FieldTypeDescriptor)
  : Expression -> FieldType -> Prop :=
| ValueField : forall identifier t,
    fieldTypeDescriptor (value identifier) = (t, true) ->
    ValueOf fieldTypeDescriptor (Identifier identifier) t
| ValueString : forall tok, ValueOf fieldTypeDescriptor (StringLiteral tok) FtString
| ValueNumber : forall tok, ValueOf fieldTypeDescriptor (NumberLiteral tok) FtNumber
| ValueDate : forall dateTime tok,
    ValueOf fieldTypeDescriptor (DateLiteral dateTime tok) FtDate
| ValueRegex : forall regex tok,
    ValueOf fieldTypeDescriptor (RegexLiteral regex tok) FtRegex
| ValueGlob : forall glob tok,
    ValueOf fieldTypeDescriptor (GlobLiteral glob tok) FtGlob.

(** The operand types a comparison operator accepts: anything when a
    side is Invalid; String and Glob for glob-match; String and Regex for
    regex-match; two equal types for any other operator. *)
Definition typesAgree (op : Operator) (lhsType rhsType : FieldType) : Prop :=
  lhsType = FtInvalid \/ rhsType = FtInvalid
  \/ match tokenType (operator op) with
     | QtkCmpGlob => lhsType = FtString /\ rhsType = FtGlob
     | QtkCmpRegexp => lhsType = FtString /\ rhsType = FtRegex
     | _ => lhsType = rhsType
     end.

(** A well-typed logical expression: parentheses and negations hold
    well-typed logical expressions, logical connectives join two of them,
    and comparisons compare two values whose types agree. *)
Inductive WellTyped (fieldTypeDescriptor : FieldTypeDescriptor) : Expression -> Prop :=
| WellTypedParen : forall e,
    WellTyped fieldTypeDescriptor e ->
    WellTyped fieldTypeDescriptor (ParenExpression e)
| WellTypedUnary : forall op e,
    WellTyped fieldTypeDescriptor e ->
    WellTyped fieldTypeDescriptor (UnaryExpression op e)
| WellTypedLogical : forall op l r,
    IsComparison op = false ->
    WellTyped fieldTypeDescriptor l ->
    WellTyped fieldTypeDescriptor r ->
    WellTyped fieldTypeDescriptor (BinaryExpression op l r)
| WellTypedComparison : forall op l r lhsType rhsType,
    IsComparison op = true ->
    ValueOf fieldTypeDescriptor l lhsType ->
    ValueOf fieldTypeDescriptor r rhsType ->
    typesAgree op lhsType rhsType ->
    WellTyped fieldTypeDescriptor (BinaryExpression op l r).

Unset Implicit Arguments.

Section Properties.

Variable time_Parse : string -> string -> option time.Time.
Variable glob_Compile : string -> option Glob.
Variable regexp_Compile : string -> option Regexp.
Variable parserPos : Expression -> QueryScannerPos.

Local Abbreviation convertComparison' :=
  (convertComparison time_Parse glob_Compile regexp_Compile).
Local Abbreviation ConvertTypes' :=
  (ConvertTypes time_Parse glob_Compile regexp_Compile).
Local Abbreviation Validate' := (Validate parserPos).
Local Abbreviation Process' :=
  (Process time_Parse glob_Compile regexp_Compile parserPos).
Local Abbreviation GenerateExpressionError' := (GenerateExpressionError parserPos).

(** The layout the [switch] of [processDateComparison] selects. *)
Definition dateLayout (text : string) : option string :=
  if MatchString dateFormatPattern text then Some queryDateFormat
  else if MatchString dateTimeFormatPattern text then Some queryDateTimeFormat
  else None.

(** The text fully matches one of the two patterns and parses, under
    the layout of that pattern, as the date/time [utc]. *)
Definition ParsesAsDate (text : string) (utc : time.Time) : Prop :=
  (MatchString dateFormatPattern text = true
   /\ time_Parse queryDateFormat text = Some utc)
  \/ (MatchString dateTimeFormatPattern text = true
      /\ time_Parse queryDateTimeFormat text = Some utc).

Definition parseQueryDate (text : string) : option time.Time :=
  match dateLayout text with
  | Some layout => time_Parse layout text
  | None => None
  end.

(** The typed literal the three inferences produce for the string
    literal [s] compared with the field [identifier] under [op], if
    any. *)
Definition inferLiteral (fieldTypeDescriptor : FieldTypeDescriptor)
           (op : Operator) (identifier s : QueryToken) : option Expression :=
  if fieldHasType fieldTypeDescriptor identifier FtDate then
    option_map (fun utc => DateLiteral (inLocal utc) s) (parseQueryDate (value s))
  else if fieldHasType fieldTypeDescriptor identifier FtString then
    if QueryTokenType_eq_dec (tokenType (operator op)) QtkCmpGlob then
      option_map (fun g => GlobLiteral g s) (glob_Compile (value s))
    else if QueryTokenType_eq_dec (tokenType (operator op)) QtkCmpRegexp then
      option_map (fun re => RegexLiteral re s) (regexp_Compile (value s))
    else None
  else None.

(** An inference applies to the comparison, with [s] the string
    literal it found and [p] the slot it would overwrite, and its parse
    or compile step fails. *)
Definition coercionFails (b : BinaryExpressionFields)
           (fieldTypeDescriptor : FieldTypeDescriptor)
           (s : QueryToken) (p : OperandPtr) : Prop :=
  (isDateComparison b fieldTypeDescriptor = (true, Some s, Some p)
   /\ parseQueryDate (value s) = None)
  \/ (isGlobComparison b fieldTypeDescriptor = (true, Some s, Some p)
      /\ glob_Compile (value s) = None)
  \/ (isRegexComparison b fieldTypeDescriptor = (true, Some s, Some p)
      /\ regexp_Compile (value s) = None).

(** What [Validate] appends for an operand of a logical connective
    [node]: the operand's diagnostics when it is a logical expression,
    and otherwise one diagnostic generated for [node]. *)
Definition logicalOperandDiagnostics (node operand : Expression)
           (fieldTypeDescriptor : FieldTypeDescriptor) : list error :=
  if isLogicalExpression operand
  then Validate parserPos operand fieldTypeDescriptor
  else [GenerateExpressionError parserPos node
          "Operands of a logical operator must resolve to boolean values" []].

(** *** Shape of the conversion of a comparison *)

Arguments MatchString : simpl never.

Lemma fieldHasType_Date_not_String (ftd : FieldTypeDescriptor) (i : QueryToken) :
  fieldHasType ftd i FtDate = true -> fieldHasType ftd i FtString = false.
Proof.
  unfold fieldHasType. destruct (ftd (value i)) as [ft ex].
  destruct ex, ft; simpl; intros H; try reflexivity; discriminate H.
Qed.

Lemma processDateComparison_candidate (b : BinaryExpressionFields)
      (ftd : FieldTypeDescriptor) :
  processDateComparison time_Parse b ftd =
  match candidate b with
  | Some (identifier, s, p) =>
      if fieldHasType ftd identifier FtDate then
        match parseQueryDate (value s) with
        | Some utc => store p (DateLiteral (inLocal utc) s) b
        | None => b
        end
      else b
  | None => b
  end.
Proof.
  destruct b as [op l r].
  destruct l, r; try reflexivity;
    unfold processDateComparison, isDateComparison, candidate, fieldHasType,
      parseQueryDate, dateLayout; simpl;
    destruct (ftd (value identifier)) as [ft ex]; destruct ex, ft; simpl;
    try reflexivity;
    destruct (MatchString dateFormatPattern (value value0));
    try destruct (MatchString dateTimeFormatPattern (value value0));
    reflexivity.
Qed.

Lemma processGlobComparison_candidate (b : BinaryExpressionFields)
      (ftd : FieldTypeDescriptor) :
  processGlobComparison glob_Compile b ftd =
  match candidate b with
  | Some (identifier, s, p) =>
      if QueryTokenType_eq_dec (tokenType (operator (bOperator b))) QtkCmpGlob then
        if fieldHasType ftd identifier FtString then
          match glob_Compile (value s) with
          | Some g => store p (GlobLiteral g s) b
          | None => b
          end
        else b
      else b
  | None => b
  end.
Proof.
  destruct b as [op l r].
  unfold processGlobComparison, isGlobComparison, candidate, fieldHasType; simpl.
  destruct (QueryTokenType_eq_dec (tokenType (operator op)) QtkCmpGlob);
    destruct l, r; try reflexivity; simpl;
    destruct (ftd (value identifier)) as [ft ex]; destruct ex, ft; reflexivity.
Qed.

Lemma processRegexComparison_candidate (b : BinaryExpressionFields)
      (ftd : FieldTypeDescriptor) :
  processRegexComparison regexp_Compile b ftd =
  match candidate b with
  | Some (identifier, s, p) =>
      if QueryTokenType_eq_dec (tokenType (operator (bOperator b))) QtkCmpRegexp then
        if fieldHasType ftd identifier FtString then
          match regexp_Compile (value s) with
          | Some re => store p (RegexLiteral re s) b
          | None => b
          end
        else b
      else b
  | None => b
  end.
Proof.
  destruct b as [op l r].
  unfold processRegexComparison, isRegexComparison, candidate, fieldHasType; simpl.
  destruct (QueryTokenType_eq_dec (tokenType (operator op)) QtkCmpRegexp);
    destruct l, r; try reflexivity; simpl;
    destruct (ftd (value identifier)) as [ft ex]; destruct ex, ft; reflexivity.
Qed.

(** Once the string literal of a candidate is overwritten by a node
    that is neither a string literal nor an identifier, the comparison
    is no candidate any more. *)
Lemma candidate_store (b : BinaryExpressionFields) (i s : QueryToken)
      (p : OperandPtr) (lit : Expression) :
  candidate b = Some (i, s, p) ->
  asStringLiteral lit = None ->
  asIdentifier lit = None ->
  candidate (store p lit b) = None.
Proof.
  destruct b as [op l r]. unfold candidate; simpl.
  destruct l, r; intros H; try discriminate H;
    injection H as <- <- <-; simpl; destruct lit; intros Hs Hi;
    try discriminate Hs; try discriminate Hi; reflexivity.
Qed.

Lemma bOperator_store (p : OperandPtr) (lit : Expression)
      (b : BinaryExpressionFields) :
  bOperator (store p lit b) = bOperator b.
Proof. destruct p; reflexivity. Qed.

Lemma convertComparison_candidate (b : BinaryExpressionFields)
      (ftd : FieldTypeDescriptor) :
  convertComparison' b ftd =
  match candidate b with
  | Some (identifier, s, p) =>
      match inferLiteral ftd (bOperator b) identifier s with
      | Some lit => store p lit b
      | None => b
      end
  | None => b
  end.
Proof.
  unfold convertComparison.
  rewrite processDateComparison_candidate.
  destruct (candidate b) as [[[i s] p]|] eqn:Hc.
  - unfold inferLiteral.
    destruct (fieldHasType ftd i FtDate) eqn:Hd.
    + destruct (parseQueryDate (value s)) as [utc|]; simpl.
      * rewrite processGlobComparison_candidate.
        rewrite (candidate_store _ _ _ _ _ Hc) by reflexivity.
        rewrite processRegexComparison_candidate.
        rewrite (candidate_store _ _ _ _ _ Hc) by reflexivity.
        reflexivity.
      * rewrite processGlobComparison_candidate, Hc.
        rewrite (fieldHasType_Date_not_String _ _ Hd).
        destruct (QueryTokenType_eq_dec _ QtkCmpGlob);
          rewrite processRegexComparison_candidate, Hc;
          rewrite (fieldHasType_Date_not_String _ _ Hd);
          destruct (QueryTokenType_eq_dec _ QtkCmpRegexp); reflexivity.
    + rewrite processGlobComparison_candidate, Hc.
      destruct (QueryTokenType_eq_dec _ QtkCmpGlob) as [Hg|Hg].
      * destruct (fieldHasType ftd i FtString).
        -- destruct (glob_Compile (value s)) as [g|]; simpl.
           ++ rewrite processRegexComparison_candidate.
              rewrite (candidate_store _ _ _ _ _ Hc) by reflexivity.
              reflexivity.
           ++ rewrite processRegexComparison_candidate, Hc.
              destruct (QueryTokenType_eq_dec _ QtkCmpRegexp) as [Hr|Hr];
                [ rewrite Hg in Hr; discriminate Hr | reflexivity ].
        -- rewrite processRegexComparison_candidate, Hc.
           destruct (QueryTokenType_eq_dec _ QtkCmpRegexp);
             [ congruence | reflexivity ].
      * rewrite processRegexComparison_candidate, Hc.
        destruct (QueryTokenType_eq_dec _ QtkCmpRegexp);
          destruct (fieldHasType ftd i FtString); try reflexivity.
        destruct (regexp_Compile (value s)); reflexivity.
  - rewrite processGlobComparison_candidate, Hc.
    rewrite processRegexComparison_candidate, Hc. reflexivity.
Qed.

(** *** The date patterns *)

Lemma MatchString_length (pattern : list PatternAtom) :
  forall s, MatchString pattern s = true -> String.length s = List.length pattern.
Proof.
  induction pattern as [|a pattern IH]; intros [|c s] H;
    try reflexivity; try discriminate H.
  - destruct a; discriminate H.
  - simpl. f_equal. apply IH.
    unfold MatchString in H; fold MatchString in H.
    destruct a; apply andb_true_iff in H; apply H.
Qed.

Lemma date_patterns_exclusive (text : string) :
  MatchString dateFormatPattern text = true ->
  MatchString dateTimeFormatPattern text = false.
Proof.
  intros Hd.
  destruct (MatchString dateTimeFormatPattern text) eqn:Hdt; [|reflexivity].
  apply MatchString_length in Hd. apply MatchString_length in Hdt.
  rewrite Hd in Hdt. discriminate Hdt.
Qed.

Lemma parseQueryDate_ParsesAsDate (text : string) (utc : time.Time) :
  parseQueryDate text = Some utc <-> ParsesAsDate text utc.
Proof.
  unfold parseQueryDate, dateLayout, ParsesAsDate.
  destruct (MatchString dateFormatPattern text) eqn:Hd.
  - rewrite (date_patterns_exclusive _ Hd). split.
    + intros H. left. split; [reflexivity | exact H].
    + intros [[_ H] | [H _]]; [exact H | discriminate H].
  - destruct (MatchString dateTimeFormatPattern text) eqn:Hdt; split.
    + intros H. right. split; [reflexivity | exact H].
    + intros [[H _] | [_ H]]; [discriminate H | exact H].
    + intros H. discriminate H.
    + intros [[H _] | [H _]]; discriminate H.
Qed.


Lemma Identifier_FieldType_Date (ftd : FieldTypeDescriptor) (identifier : QueryToken) :
  Expression_FieldType (Identifier identifier) ftd = FtDate <->
  fieldHasType ftd identifier FtDate = true.
Proof.
  unfold fieldHasType; simpl.
  destruct (ftd (value identifier)) as [ft ex].
  destruct ex, ft; simpl; split; intros H; try reflexivity; discriminate H.
Qed.

(** *** Conversion of comparisons *)

Lemma ConvertTypes_comparison (ftd : FieldTypeDescriptor) (op : Operator)
      (l r : Expression) :
  IsComparison op = true ->
  ConvertTypes' (BinaryExpression op l r) ftd =
  toExpression (convertComparison' (mkBinary op l r) ftd).
Proof. intros H. simpl. rewrite H. reflexivity. Qed.

Lemma inferLiteral_typed (ftd : FieldTypeDescriptor) (op : Operator)
      (i s : QueryToken) (lit : Expression) :
  inferLiteral ftd op i s = Some lit -> TypedLiteralOf s lit.
Proof.
  unfold inferLiteral.
  destruct (fieldHasType ftd i FtDate).
  - destruct (parseQueryDate (value s)); simpl; intros H;
      [ injection H as <-; constructor | discriminate H ].
  - destruct (fieldHasType ftd i FtString); [| intros H; discriminate H].
    destruct (QueryTokenType_eq_dec _ QtkCmpGlob).
    + destruct (glob_Compile (value s)); simpl; intros H;
        [ injection H as <-; constructor | discriminate H ].
    + destruct (QueryTokenType_eq_dec _ QtkCmpRegexp); [| intros H; discriminate H].
      destruct (regexp_Compile (value s)); simpl; intros H;
        [ injection H as <-; constructor | discriminate H ].
Qed.

Lemma TypedLiteralOf_not_candidate (s : QueryToken) (lit : Expression) :
  TypedLiteralOf s lit -> asStringLiteral lit = None /\ asIdentifier lit = None.
Proof. intros H; destruct H; split; reflexivity. Qed.

Lemma candidate_load (b : BinaryExpressionFields) (i s : QueryToken)
      (p : OperandPtr) :
  candidate b = Some (i, s, p) -> load p b = StringLiteral s.
Proof.
  destruct b as [op l r]. unfold candidate; simpl.
  destruct l, r; intros H; try discriminate H; injection H as <- <- <-; reflexivity.
Qed.

Lemma bOperator_convertComparison (b : BinaryExpressionFields)
      (ftd : FieldTypeDescriptor) :
  bOperator (convertComparison' b ftd) = bOperator b.
Proof.
  rewrite convertComparison_candidate.
  destruct (candidate b) as [[[i s] p]|]; [| reflexivity].
  destruct (inferLiteral ftd (bOperator b) i s); [| reflexivity].
  apply bOperator_store.
Qed.

Lemma convertComparison_idempotent (b : BinaryExpressionFields)
      (ftd : FieldTypeDescriptor) :
  convertComparison' (convertComparison' b ftd) ftd = convertComparison' b ftd.
Proof.
  rewrite (convertComparison_candidate b).
  destruct (candidate b) as [[[i s] p]|] eqn:Hc.
  - destruct (inferLiteral ftd (bOperator b) i s) as [lit|] eqn:Hi.
    + rewrite convertComparison_candidate.
      destruct (TypedLiteralOf_not_candidate _ _ (inferLiteral_typed _ _ _ _ _ Hi))
        as [Hs Hid].
      rewrite (candidate_store _ _ _ _ _ Hc Hs Hid). reflexivity.
    + rewrite convertComparison_candidate, Hc, Hi. reflexivity.
  - rewrite convertComparison_candidate, Hc. reflexivity.
Qed.

Lemma isLogicalExpression_ConvertTypes (e : Expression) (ftd : FieldTypeDescriptor) :
  isLogicalExpression (ConvertTypes' e ftd) = isLogicalExpression e.
Proof.
  destruct e; try reflexivity. simpl.
  destruct (IsComparison operator0); reflexivity.
Qed.

Lemma ConvertTypes_date_field_first
      (ftd : FieldTypeDescriptor) (op : Operator) (field s : QueryToken) :
  IsComparison op = true ->
  fieldHasType ftd field FtDate = true ->
  ConvertTypes' (BinaryExpression op (Identifier field) (StringLiteral s)) ftd =
  BinaryExpression op (Identifier field)
    (match parseQueryDate (value s) with
     | Some utc => DateLiteral (inLocal utc) s
     | None => StringLiteral s
     end).
Proof.
  intros Hcmp Htype.
  rewrite (ConvertTypes_comparison _ _ _ _ Hcmp), convertComparison_candidate.
  unfold candidate, inferLiteral; simpl. rewrite Htype.
  destruct (parseQueryDate (value s)); reflexivity.
Qed.

Lemma ConvertTypes_date_literal_first
      (ftd : FieldTypeDescriptor) (op : Operator) (field s : QueryToken) :
  IsComparison op = true ->
  fieldHasType ftd field FtDate = true ->
  ConvertTypes' (BinaryExpression op (StringLiteral s) (Identifier field)) ftd =
  BinaryExpression op
    (match parseQueryDate (value s) with
     | Some utc => DateLiteral (inLocal utc) s
     | None => StringLiteral s
     end) (Identifier field).
Proof.
  intros Hcmp Htype.
  rewrite (ConvertTypes_comparison _ _ _ _ Hcmp), convertComparison_candidate.
  unfold candidate, inferLiteral; simpl. rewrite Htype.
  destruct (parseQueryDate (value s)); reflexivity.
Qed.


(** *** Failed coercions *)

Lemma isDateComparison_true (b : BinaryExpressionFields) (ftd : FieldTypeDescriptor)
      (s : QueryToken) (p : OperandPtr) :
  isDateComparison b ftd = (true, Some s, Some p) ->
  exists i, candidate b = Some (i, s, p) /\ fieldHasType ftd i FtDate = true.
Proof.
  destruct b as [op l r].
  unfold isDateComparison, candidate, fieldHasType; simpl.
  destruct l, r; simpl; intros H; try discriminate H;
    destruct (ftd (value identifier)) as [ft ex] eqn:Hf; destruct ex, ft;
    simpl in H; try discriminate H; injection H as <- <-;
    exists identifier; rewrite Hf; split; reflexivity.
Qed.

Lemma isGlobComparison_true (b : BinaryExpressionFields) (ftd : FieldTypeDescriptor)
      (s : QueryToken) (p : OperandPtr) :
  isGlobComparison b ftd = (true, Some s, Some p) ->
  tokenType (operator (bOperator b)) = QtkCmpGlob
  /\ exists i, candidate b = Some (i, s, p) /\ fieldHasType ftd i FtString = true.
Proof.
  destruct b as [op l r].
  unfold isGlobComparison, candidate, fieldHasType; simpl.
  destruct (QueryTokenType_eq_dec (tokenType (operator op)) QtkCmpGlob) as [Hop|Hop];
    [| intros H; discriminate H ].
  destruct l, r; simpl; intros H; try discriminate H;
    destruct (ftd (value identifier)) as [ft ex] eqn:Hf; destruct ex, ft;
    simpl in H; try discriminate H; injection H as <- <-;
    (split; [ exact Hop | exists identifier; rewrite Hf; split; reflexivity ]).
Qed.

Lemma isRegexComparison_true (b : BinaryExpressionFields) (ftd : FieldTypeDescriptor)
      (s : QueryToken) (p : OperandPtr) :
  isRegexComparison b ftd = (true, Some s, Some p) ->
  tokenType (operator (bOperator b)) = QtkCmpRegexp
  /\ exists i, candidate b = Some (i, s, p) /\ fieldHasType ftd i FtString = true.
Proof.
  destruct b as [op l r].
  unfold isRegexComparison, candidate, fieldHasType; simpl.
  destruct (QueryTokenType_eq_dec (tokenType (operator op)) QtkCmpRegexp) as [Hop|Hop];
    [| intros H; discriminate H ].
  destruct l, r; simpl; intros H; try discriminate H;
    destruct (ftd (value identifier)) as [ft ex] eqn:Hf; destruct ex, ft;
    simpl in H; try discriminate H; injection H as <- <-;
    (split; [ exact Hop | exists identifier; rewrite Hf; split; reflexivity ]).
Qed.

Lemma fieldHasType_String_not_Date (ftd : FieldTypeDescriptor) (i : QueryToken) :
  fieldHasType ftd i FtString = true -> fieldHasType ftd i FtDate = false.
Proof.
  unfold fieldHasType. destruct (ftd (value i)) as [ft ex].
  destruct ex, ft; simpl; intros H; try reflexivity; discriminate H.
Qed.

Lemma coercionFails_unchanged (b : BinaryExpressionFields) (ftd : FieldTypeDescriptor)
      (s : QueryToken) (p : OperandPtr) :
  coercionFails b ftd s p ->
  convertComparison' b ftd = b /\ load p b = StringLiteral s.
Proof.
  intros [[H Hfail] | [[H Hfail] | [H Hfail]]].
  - apply isDateComparison_true in H. destruct H as (i & Hc & Ht).
    rewrite convertComparison_candidate, Hc. unfold inferLiteral.
    rewrite Ht, Hfail. split; [ reflexivity | exact (candidate_load _ _ _ _ Hc) ].
  - apply isGlobComparison_true in H. destruct H as (Hop & i & Hc & Ht).
    rewrite convertComparison_candidate, Hc. unfold inferLiteral.
    rewrite (fieldHasType_String_not_Date _ _ Ht), Ht.
    destruct (QueryTokenType_eq_dec _ QtkCmpGlob); [| contradiction ].
    rewrite Hfail. split; [ reflexivity | exact (candidate_load _ _ _ _ Hc) ].
  - apply isRegexComparison_true in H. destruct H as (Hop & i & Hc & Ht).
    rewrite convertComparison_candidate, Hc. unfold inferLiteral.
    rewrite (fieldHasType_String_not_Date _ _ Ht), Ht.
    destruct (QueryTokenType_eq_dec _ QtkCmpGlob); [ congruence |].
    destruct (QueryTokenType_eq_dec _ QtkCmpRegexp); [| contradiction ].
    rewrite Hfail. split; [ reflexivity | exact (candidate_load _ _ _ _ Hc) ].
Qed.

(** C5. When the date parse, the glob compile or the regex compile of
    an inference fails on a comparison, the conversion leaves the node
    and both its operands as they were; the operand the inference
    looked at is still the string literal and still resolves to the
    type String; and the conversion adds no diagnostic: here, as for
    every logical root, the diagnostics of [Process] are those of
    validating the tree the conversion left. *)
Theorem failed_coercion_is_silent
        (ftd : FieldTypeDescriptor) (op : Operator) (l r : Expression)
        (s : QueryToken) (p : OperandPtr) :
  IsComparison op = true ->
  coercionFails (mkBinary op l r) ftd s p ->
  let node := BinaryExpression op l r in
  ConvertTypes' node ftd = node
  /\ load p (convertComparison' (mkBinary op l r) ftd) = StringLiteral s
  /\ determineFieldType (load p (convertComparison' (mkBinary op l r) ftd)) ftd
     = (FtString, true)
  /\ Process' (NewExpressionProcessor node ftd) =
     (NewExpressionProcessor node ftd, (Some node, Validate' node ftd))
  /\ (forall root,
         isLogicalExpression root = true ->
         snd (snd (Process' (NewExpressionProcessor root ftd))) =
         Validate' (ConvertTypes' root ftd) ftd).
Proof.
  intros Hcmp Hfail node.
  destruct (coercionFails_unchanged _ _ _ _ Hfail) as [Hsame Hload].
  assert (Hconv : ConvertTypes' node ftd = node).
  { unfold node. rewrite (ConvertTypes_comparison _ _ _ _ Hcmp), Hsame. reflexivity. }
  repeat split.
  - exact Hconv.
  - rewrite Hsame. exact Hload.
  - rewrite Hsame, Hload. reflexivity.
  - unfold Process. simpl ep_expression. simpl ep_fieldTypeDescriptor.
    simpl isLogicalExpression. cbv iota. rewrite Hconv. reflexivity.
  - intros root Hroot. unfold Process.
    cbn [ep_expression ep_fieldTypeDescriptor]. rewrite Hroot. reflexivity.
Qed.

(** *** Idempotence and frame *)

(** C6. Converting a converted tree changes nothing, for every tree and
    every oracle. *)
Theorem ConvertTypes_idempotent (e : Expression) (ftd : FieldTypeDescriptor) :
  ConvertTypes' (ConvertTypes' e ftd) ftd = ConvertTypes' e ftd.
Proof.
  induction e as [ | | | | | | e IH | op e IH | op l IHl r IHr ];
    try reflexivity.
  - simpl. destruct (isLogicalExpression e) eqn:He.
    + rewrite isLogicalExpression_ConvertTypes, He, IH. reflexivity.
    + rewrite He. reflexivity.
  - simpl. destruct (isLogicalExpression e) eqn:He.
    + rewrite isLogicalExpression_ConvertTypes, He, IH. reflexivity.
    + rewrite He. reflexivity.
  - destruct (IsComparison op) eqn:Hcmp.
    + rewrite (ConvertTypes_comparison _ _ _ _ Hcmp).
      set (c := convertComparison' (mkBinary op l r) ftd).
      assert (Hop : bOperator c = op) by apply bOperator_convertComparison.
      unfold toExpression at 1. rewrite Hop.
      rewrite (ConvertTypes_comparison _ _ _ _ Hcmp).
      replace (mkBinary op (lhs c) (rhs c)) with c
        by (destruct c; simpl in Hop; subst; reflexivity).
      unfold c. rewrite convertComparison_idempotent. reflexivity.
    + simpl. rewrite Hcmp. simpl. rewrite Hcmp. simpl.
      f_equal.
      * destruct (isLogicalExpression l) eqn:Hl.
        -- rewrite isLogicalExpression_ConvertTypes, Hl, IHl. reflexivity.
        -- rewrite Hl. reflexivity.
      * destruct (isLogicalExpression r) eqn:Hr.
        -- rewrite isLogicalExpression_ConvertTypes, Hr, IHr. reflexivity.
        -- rewrite Hr. reflexivity.
Qed.

Lemma Coerced_guarded (e e' : Expression) :
  Coerced e e' -> Coerced e (if isLogicalExpression e then e' else e).
Proof. intros H. destruct (isLogicalExpression e); [ exact H | constructor ]. Qed.

(** C9. The conversion keeps the shape of the tree: the converted tree
    differs from the original only in operands of comparisons that
    were string literals and are now date, glob or regex literals
    carrying the token of the string literal they replace (at most one
    operand per comparison); every other node and field is the same. *)
Theorem ConvertTypes_frame (e : Expression) (ftd : FieldTypeDescriptor) :
  Coerced e (ConvertTypes' e ftd).
Proof.
  induction e as [ | | | | | | e IH | op e IH | op l IHl r IHr ];
    try apply CoercedSame.
  - simpl. apply CoercedParen. apply Coerced_guarded. exact IH.
  - simpl. apply CoercedUnary. apply Coerced_guarded. exact IH.
  - destruct (IsComparison op) eqn:Hcmp.
    + rewrite (ConvertTypes_comparison _ _ _ _ Hcmp), convertComparison_candidate.
      destruct (candidate (mkBinary op l r)) as [[[i s] p]|] eqn:Hc;
        [| apply CoercedSame ].
      simpl bOperator.
      destruct (inferLiteral ftd op i s) as [lit|] eqn:Hi; [| apply CoercedSame ].
      apply inferLiteral_typed in Hi.
      unfold candidate in Hc; simpl in Hc.
      destruct l, r; try discriminate Hc; injection Hc as <- <- <-.
      * apply CoercedRhs; assumption.
      * apply CoercedLhs; assumption.
    + simpl. rewrite Hcmp. simpl.
      apply CoercedLogical; [ exact Hcmp | | ]; apply Coerced_guarded; assumption.
Qed.

(** *** The operand-restriction table *)

(** C2. The table restricts exactly the glob-match and the regex-match
    operators: glob-match takes String on the left and Glob on the
    right, regex-match takes String on the left and Regex on the right.
    An operator of any other kind is not restricted, every type is a
    valid argument on either of its sides, and its allowed types are
    empty on both sides. *)
Theorem operand_restriction_table (op : Operator) :
  (isOperandTypeRestricted op = true <->
   tokenType (operator op) = QtkCmpGlob \/ tokenType (operator op) = QtkCmpRegexp)
  /\ (tokenType (operator op) = QtkCmpGlob ->
      (forall t, isValidArgument op bopLeft t = true <-> t = FtString)
      /\ (forall t, isValidArgument op bopRight t = true <-> t = FtGlob)
      /\ allowedTypes op bopLeft = [FtString]
      /\ allowedTypes op bopRight = [FtGlob])
  /\ (tokenType (operator op) = QtkCmpRegexp ->
      (forall t, isValidArgument op bopLeft t = true <-> t = FtString)
      /\ (forall t, isValidArgument op bopRight t = true <-> t = FtRegex)
      /\ allowedTypes op bopLeft = [FtString]
      /\ allowedTypes op bopRight = [FtRegex])
  /\ (tokenType (operator op) <> QtkCmpGlob ->
      tokenType (operator op) <> QtkCmpRegexp ->
      isOperandTypeRestricted op = false
      /\ (forall side t, isValidArgument op side t = true)
      /\ (forall side, allowedTypes op side = [])).
Proof.
  unfold isOperandTypeRestricted, isValidArgument, allowedTypes.
  destruct op as [[kind text from to]]; simpl.
  repeat split.
  - destruct kind; simpl; intros H; try discriminate H; auto.
  - intros [H | H]; subst kind; reflexivity.
  - subst kind; simpl. destruct t; simpl; intros H0; try discriminate H0; reflexivity.
  - intros ->; subst kind; reflexivity.
  - subst kind; simpl. destruct t; simpl; intros H0; try discriminate H0; reflexivity.
  - intros ->; subst kind; reflexivity.
  - subst kind; reflexivity.
  - subst kind; reflexivity.
  - subst kind; simpl. destruct t; simpl; intros H0; try discriminate H0; reflexivity.
  - intros ->; subst kind; reflexivity.
  - subst kind; simpl. destruct t; simpl; intros H0; try discriminate H0; reflexivity.
  - intros ->; subst kind; reflexivity.
  - subst kind; reflexivity.
  - subst kind; reflexivity.
  - destruct kind; try reflexivity; congruence.
  - intros side t. destruct kind; try reflexivity; congruence.
  - intros side. destruct kind; try reflexivity; congruence.
Qed.

(** *** Validation *)

Lemma append_assoc (a b c : string) :
  ((a ++ b) ++ c)%string = (a ++ (b ++ c))%string.
Proof. induction a as [|ch a IH]; simpl; [ reflexivity | now rewrite IH ]. Qed.

Lemma FieldType_eqb_eq (a b : FieldType) : FieldType_eqb a b = true <-> a = b.
Proof.
  unfold FieldType_eqb. destruct (FieldType_eq_dec a b); split; intros H;
    try reflexivity; try assumption; try discriminate H; contradiction.
Qed.

Lemma FieldType_eqb_refl (a : FieldType) : FieldType_eqb a a = true.
Proof. apply FieldType_eqb_eq. reflexivity. Qed.

Lemma FieldType_eqb_sym (a b : FieldType) : FieldType_eqb a b = FieldType_eqb b a.
Proof.
  unfold FieldType_eqb.
  destruct (FieldType_eq_dec a b), (FieldType_eq_dec b a); congruence.
Qed.

(** C3. In a comparison whose two sides both resolve to a field type,
    when either resolved type is Invalid the node adds nothing of its
    own: the diagnostics are exactly those collected from the two
    operands (no restricted-operand-type and no different-types
    diagnostic). *)
Theorem invalid_side_suppresses_type_checks
        (ftd : FieldTypeDescriptor) (op : Operator) (l r : Expression)
        (lhsType rhsType : FieldType) :
  IsComparison op = true ->
  determineFieldType l ftd = (lhsType, true) ->
  determineFieldType r ftd = (rhsType, true) ->
  lhsType = FtInvalid \/ rhsType = FtInvalid ->
  Validate' (BinaryExpression op l r) ftd =
  operandDiagnosticsWith GenerateExpressionError' l ftd
  ++ operandDiagnosticsWith GenerateExpressionError' r ftd.
Proof.
  intros Hcmp Hl Hr Hinv.
  unfold Validate, operandDiagnosticsWith. simpl.
  rewrite Hcmp, Hl, Hr. simpl.
  assert (Hor : FieldType_eqb lhsType FtInvalid || FieldType_eqb rhsType FtInvalid = true).
  { destruct Hinv as [-> | ->]; rewrite FieldType_eqb_refl;
      [ reflexivity | apply orb_true_r ]. }
  rewrite Hor. simpl. rewrite andb_false_r.
  destruct (isOperandTypeRestricted op); reflexivity.
Qed.

(** C8 (amended). For a logical connective whose left side is a bare
    identifier and whose right side is a string literal, validation
    yields exactly two diagnostics, one for each side, both with the
    message "Operands of a logical operator must resolve to boolean
    values" and both generated for the binary expression itself. *)
Theorem logical_identifier_and_literal
        (ftd : FieldTypeDescriptor) (op : Operator) (field literal : QueryToken) :
  IsComparison op = false ->
  Validate' (BinaryExpression op (Identifier field) (StringLiteral literal)) ftd =
  [ GenerateExpressionError'
      (BinaryExpression op (Identifier field) (StringLiteral literal))
      "Operands of a logical operator must resolve to boolean values" [];
    GenerateExpressionError'
      (BinaryExpression op (Identifier field) (StringLiteral literal))
      "Operands of a logical operator must resolve to boolean values" [] ].
Proof.
  intros Hcmp. unfold Validate. simpl. rewrite Hcmp. reflexivity.
Qed.

(** C10. For a logical connective, an operand that is not a logical
    expression is not validated, even when it can be (an identifier):
    it contributes exactly one "Operands of a logical operator must
    resolve to boolean values" diagnostic, and that diagnostic is
    prefixed with the line and column of the binary expression itself.
    In particular an unknown identifier as operand gets no "Invalid
    field" diagnostic, which validating it would have produced. *)
Theorem logical_operand_not_recursed
        (ftd : FieldTypeDescriptor) (op : Operator) (l r : Expression) :
  IsComparison op = false ->
  let node := BinaryExpression op l r in
  Validate' node ftd =
  logicalOperandDiagnostics node l ftd ++ logicalOperandDiagnostics node r ftd
  /\ GenerateExpressionError' node
       "Operands of a logical operator must resolve to boolean values" [] =
     (formatUint (line (Pos parserPos node)) ++ ":"
      ++ formatUint (col (Pos parserPos node)) ++ ": "
      ++ "Operands of a logical operator must resolve to boolean values")%string
  /\ (forall field,
         l = Identifier field ->
         snd (ftd (value field)) = false ->
         isValidatableExpression l = true
         /\ Validate' l ftd =
            [GenerateExpressionError' l "Invalid field: %v" [value field]]
         /\ logicalOperandDiagnostics node l ftd =
            [GenerateExpressionError' node
               "Operands of a logical operator must resolve to boolean values" []]).
Proof.
  intros Hcmp node. repeat split.
  - unfold node, logicalOperandDiagnostics, Validate. simpl. rewrite Hcmp. simpl.
    destruct (isLogicalExpression l), (isLogicalExpression r); reflexivity.
  - unfold GenerateExpressionError. simpl.
    rewrite !append_assoc. simpl. rewrite !append_assoc. reflexivity.
  - subst l. reflexivity.
  - subst l. unfold Validate. simpl. rewrite H0. reflexivity.
  - subst l. reflexivity.
Qed.

(** *** Order of the operands *)

Lemma candidate_swap (b : BinaryExpressionFields) :
  candidate (swapOperands b) =
  option_map (fun '(i, s, p) => (i, s, swapPtr p)) (candidate b).
Proof. destruct b as [op l r]. destruct l, r; reflexivity. Qed.

Lemma store_swap (p : OperandPtr) (lit : Expression) (b : BinaryExpressionFields) :
  store (swapPtr p) lit (swapOperands b) = swapOperands (store p lit b).
Proof. destruct p; reflexivity. Qed.

Lemma convertComparison_swap (b : BinaryExpressionFields) (ftd : FieldTypeDescriptor) :
  convertComparison' (swapOperands b) ftd = swapOperands (convertComparison' b ftd).
Proof.
  rewrite !convertComparison_candidate, candidate_swap.
  destruct (candidate b) as [[[i s] p]|]; simpl; [| reflexivity ].
  destruct (inferLiteral ftd (bOperator b) i s); [ apply store_swap | reflexivity ].
Qed.

Lemma ConvertTypes_swap (ftd : FieldTypeDescriptor) (op : Operator)
      (l r l' r' : Expression) :
  IsComparison op = true ->
  ConvertTypes' (BinaryExpression op l r) ftd = BinaryExpression op l' r' ->
  ConvertTypes' (BinaryExpression op r l) ftd = BinaryExpression op r' l'.
Proof.
  intros Hcmp H.
  rewrite (ConvertTypes_comparison ftd op l r Hcmp) in H.
  rewrite (ConvertTypes_comparison ftd op r l Hcmp).
  change (mkBinary op r l) with (swapOperands (mkBinary op l r)).
  rewrite convertComparison_swap.
  destruct (convertComparison' (mkBinary op l r) ftd) as [op0 l0 r0].
  unfold toExpression in *; simpl in *. congruence.
Qed.

Lemma DiagnosticKinds_swap (ftd : FieldTypeDescriptor) (op : Operator)
      (l r : Expression) :
  IsComparison op = true ->
  isOperandTypeRestricted op = false ->
  Permutation (DiagnosticKinds (BinaryExpression op l r) ftd)
              (DiagnosticKinds (BinaryExpression op r l) ftd).
Proof.
  intros Hcmp Hunres. unfold DiagnosticKinds. simpl.
  rewrite Hcmp, Hunres. simpl.
  set (vl := if isValidatableExpression l then _ else _).
  set (vr := if isValidatableExpression r then _ else _).
  destruct (determineFieldType l ftd) as [lt lv].
  destruct (determineFieldType r ftd) as [rt rv].
  rewrite (andb_comm rv lv), (FieldType_eqb_sym rt lt),
    (orb_comm (FieldType_eqb rt FtInvalid)).
  destruct (negb (lv && rv)).
  - apply Permutation_app_tail, Permutation_app_comm.
  - destruct (negb (FieldType_eqb lt rt)
              && negb (FieldType_eqb lt FtInvalid || FieldType_eqb rt FtInvalid)).
    + apply Permutation_app_tail, Permutation_app_comm.
    + apply Permutation_app_comm.
Qed.

Lemma Validate_field_and_date
      (ftd : FieldTypeDescriptor) (op : Operator) (field s : QueryToken)
      (dateTime : time.Time) :
  IsComparison op = true ->
  isOperandTypeRestricted op = false ->
  fieldHasType ftd field FtDate = true ->
  Validate' (BinaryExpression op (Identifier field) (DateLiteral dateTime s)) ftd = []
  /\ Validate' (BinaryExpression op (DateLiteral dateTime s) (Identifier field)) ftd = [].
Proof.
  intros Hcmp Hunres Htype. unfold Validate, determineFieldType. simpl.
  rewrite Hcmp, Hunres. unfold fieldHasType in Htype.
  destruct (ftd (value field)) as [ft ex].
  destruct ex, ft; try discriminate Htype. split; reflexivity.
Qed.

(** C7 (amended). In a comparison the order of the operands does not
    matter to the conversion: exchanging the operands exchanges the
    converted operands.  When the operator is not operand-type
    restricted it does not matter to validation either: the diagnostic
    kinds are the same, before and after conversion.  In particular,
    for such an operator and a field of type Date, the field compared
    with a string literal that parses as a date gives, in either
    order, the date literal and no diagnostics. *)
Theorem side_order_independence
        (ftd : FieldTypeDescriptor) (op : Operator) (l r : Expression) :
  IsComparison op = true ->
  (forall l' r',
      ConvertTypes' (BinaryExpression op l r) ftd = BinaryExpression op l' r' ->
      ConvertTypes' (BinaryExpression op r l) ftd = BinaryExpression op r' l')
  /\ (isOperandTypeRestricted op = false ->
      Permutation (DiagnosticKinds (BinaryExpression op l r) ftd)
                  (DiagnosticKinds (BinaryExpression op r l) ftd)
      /\ Permutation
           (DiagnosticKinds (ConvertTypes' (BinaryExpression op l r) ftd) ftd)
           (DiagnosticKinds (ConvertTypes' (BinaryExpression op r l) ftd) ftd))
  /\ (isOperandTypeRestricted op = false ->
      forall field s utc,
        l = Identifier field ->
        r = StringLiteral s ->
        Expression_FieldType l ftd = FtDate ->
        ParsesAsDate (value s) utc ->
        snd (Process' (NewExpressionProcessor (BinaryExpression op l r) ftd)) =
        (Some (BinaryExpression op l (DateLiteral (inLocal utc) s)), [])
        /\ snd (Process' (NewExpressionProcessor (BinaryExpression op r l) ftd)) =
           (Some (BinaryExpression op (DateLiteral (inLocal utc) s) l), [])).
Proof.
  intros Hcmp. split; [| split ].
  - intros l' r'. apply ConvertTypes_swap. exact Hcmp.
  - intros Hunres. split.
    + apply DiagnosticKinds_swap; assumption.
    + rewrite (ConvertTypes_comparison _ _ _ _ Hcmp).
      destruct (convertComparison' (mkBinary op l r) ftd) as [op0 l0 r0] eqn:Hconv.
      assert (Hop : op0 = op).
      { pose proof (bOperator_convertComparison (mkBinary op l r) ftd) as H.
        rewrite Hconv in H. exact H. }
      subst op0.
      rewrite (ConvertTypes_swap ftd op l r l0 r0 Hcmp).
      * apply DiagnosticKinds_swap; assumption.
      * rewrite (ConvertTypes_comparison _ _ _ _ Hcmp), Hconv. reflexivity.
  - intros Hunres field s utc -> -> Htype Hparse.
    apply Identifier_FieldType_Date in Htype.
    apply parseQueryDate_ParsesAsDate in Hparse.
    destruct (Validate_field_and_date _ _ _ s (inLocal utc) Hcmp Hunres Htype) as [Hv1 Hv2].
    unfold Process.
    cbn [ep_expression ep_fieldTypeDescriptor isLogicalExpression].
    rewrite (ConvertTypes_date_field_first _ _ _ s Hcmp Htype).
    rewrite (ConvertTypes_date_literal_first _ _ _ s Hcmp Htype).
    rewrite Hparse, Hv1, Hv2. split; reflexivity.
Qed.

(** *** The entry point *)

(** C4 (amended). When the root is not a logical expression, [Process]
    returns exactly one diagnostic, "Expected logical expression but
    received expression of type <kind>" with the root's type name, and
    no expression ([nil]); the processor and its tree are left as they
    were, so nothing is converted or validated. *)
Theorem Process_non_logical_root (ep : ExpressionProcessor) :
  isLogicalExpression (ep_expression ep) = false ->
  Process' ep =
  (ep,
   (None,
    [("Expected logical expression but received expression of type "
      ++ typeName (ep_expression ep))%string])).
Proof.
  intros Hroot. unfold Process. rewrite Hroot.
  destruct ep as [root ftd]; simpl in *.
  destruct root; try discriminate Hroot; reflexivity.
Qed.

End Properties.

(** ** The properties on concrete queries *)


(** The glob-match operator takes Glob, and nothing else, on its right. *)
Lemma operand_restriction_table_witness :
  tokenType (operator Env.opGlob) = QtkCmpGlob
  /\ isValidArgument Env.opGlob bopRight FtGlob = true
  /\ tokenType (operator Env.opEq) <> QtkCmpGlob
  /\ tokenType (operator Env.opEq) <> QtkCmpRegexp
  /\ isOperandTypeRestricted Env.opEq = false.
Proof.
  assert (H1 : tokenType (operator Env.opEq) <> QtkCmpGlob) by discriminate.
  assert (H2 : tokenType (operator Env.opEq) <> QtkCmpRegexp) by discriminate.
  split; [ reflexivity | split; [ | split; [ exact H1 | split; [ exact H2 | ] ] ] ].
  - destruct (operand_restriction_table Env.opGlob) as (_ & H & _).
    destruct (H eq_refl) as (_ & Hright & _).
    apply Hright. reflexivity.
  - destruct (operand_restriction_table Env.opEq) as (_ & _ & _ & H).
    exact (proj1 (H H1 H2)).
Defined.

(** [nope = "literal"] with [nope] unknown: only the unknown field is
    reported. *)
Lemma invalid_side_suppresses_type_checks_witness :
  IsComparison Env.opEq = true
  /\ determineFieldType (Identifier Env.unknownTok) Env.oracle = (FtInvalid, true)
  /\ determineFieldType (StringLiteral Env.literalTok) Env.oracle = (FtString, true)
  /\ Env.Validate
       (BinaryExpression Env.opEq (Identifier Env.unknownTok)
          (StringLiteral Env.literalTok)) Env.oracle =
     ["1:1: Invalid field: nope"].
Proof.
  split; [ reflexivity | split; [ reflexivity | split; [ reflexivity | ] ] ].
  unfold Env.Validate.
  rewrite (invalid_side_suppresses_type_checks Env.parserPos Env.oracle Env.opEq
             (Identifier Env.unknownTok) (StringLiteral Env.literalTok)
             FtInvalid FtString eq_refl eq_refl eq_refl (or_introl eq_refl)).
  reflexivity.
Defined.

(** A string literal as the whole query. *)
Lemma Process_non_logical_root_witness :
  isLogicalExpression (StringLiteral Env.literalTok) = false
  /\ Env.Process (NewExpressionProcessor (StringLiteral Env.literalTok) Env.oracle) =
     (NewExpressionProcessor (StringLiteral Env.literalTok) Env.oracle,
      (None,
       ["Expected logical expression but received expression of type StringLiteral"])).
Proof.
  split; [ reflexivity | ].
  exact (Process_non_logical_root Env.time_Parse Env.glob_Compile Env.regexp_Compile
           Env.parserPos
           (NewExpressionProcessor (StringLiteral Env.literalTok) Env.oracle) eq_refl).
Defined.

(** C4, as stated, fails: for a string literal as the root, the
    expression [Process] returns is [nil], not the input expression. *)
Lemma Process_non_logical_root_returns_nil :
  let ep := NewExpressionProcessor (StringLiteral Env.literalTok) Env.oracle in
  isLogicalExpression (ep_expression ep) = false
  /\ fst (snd (Env.Process ep)) = None
  /\ fst (snd (Env.Process ep)) <> Some (ep_expression ep).
Proof.
  simpl. split; [ reflexivity | split; [ reflexivity | discriminate ] ].
Qed.

(** [created >= "2021-13-01"]: the text has the shape of a date and does
    not parse (month 13); nothing changes and the diagnostic is the one
    validation gives for a Date compared with a String. *)
Lemma failed_coercion_is_silent_witness :
  IsComparison Env.opGe = true
  /\ coercionFails Env.time_Parse Env.glob_Compile Env.regexp_Compile
       (mkBinary Env.opGe (Identifier Env.createdTok) (StringLiteral Env.badDateTok))
       Env.oracle Env.badDateTok PtrRhs
  /\ Env.Process
       (NewExpressionProcessor
          (BinaryExpression Env.opGe (Identifier Env.createdTok)
             (StringLiteral Env.badDateTok)) Env.oracle) =
     (NewExpressionProcessor
        (BinaryExpression Env.opGe (Identifier Env.createdTok)
           (StringLiteral Env.badDateTok)) Env.oracle,
      (Some (BinaryExpression Env.opGe (Identifier Env.createdTok)
               (StringLiteral Env.badDateTok)),
       ["1:9: Attempting to compare different types - LHS Type: Date vs RHS Type: String"])).
Proof.
  assert (Hfail : coercionFails Env.time_Parse Env.glob_Compile Env.regexp_Compile
                    (mkBinary Env.opGe (Identifier Env.createdTok)
                       (StringLiteral Env.badDateTok))
                    Env.oracle Env.badDateTok PtrRhs)
    by (left; split; reflexivity).
  split; [ reflexivity | split; [ exact Hfail | ] ].
  destruct (failed_coercion_is_silent Env.time_Parse Env.glob_Compile
              Env.regexp_Compile Env.parserPos Env.oracle Env.opGe
              (Identifier Env.createdTok) (StringLiteral Env.badDateTok)
              Env.badDateTok PtrRhs eq_refl Hfail) as (_ & _ & _ & H & _).
  unfold Env.Process. rewrite H. reflexivity.
Defined.

(** [created = "2021-01-01"] and ["2021-01-01" = created]. *)
Lemma side_order_independence_witness :
  IsComparison Env.opEq = true
  /\ isOperandTypeRestricted Env.opEq = false
  /\ snd (Env.Process
            (NewExpressionProcessor
               (BinaryExpression Env.opEq (Identifier Env.createdTok)
                  (StringLiteral Env.dateTok)) Env.oracle)) =
     (Some (BinaryExpression Env.opEq (Identifier Env.createdTok)
              (DateLiteral (time.mkTime 2021 1 1 0 0 0 0 time.Local) Env.dateTok)),
      [])
  /\ snd (Env.Process
            (NewExpressionProcessor
               (BinaryExpression Env.opEq (StringLiteral Env.dateTok)
                  (Identifier Env.createdTok)) Env.oracle)) =
     (Some (BinaryExpression Env.opEq
              (DateLiteral (time.mkTime 2021 1 1 0 0 0 0 time.Local) Env.dateTok)
              (Identifier Env.createdTok)),
      []).
Proof.
  split; [ reflexivity | split; [ reflexivity | ] ].
  destruct (side_order_independence Env.time_Parse Env.glob_Compile
              Env.regexp_Compile Env.parserPos Env.oracle Env.opEq
              (Identifier Env.createdTok) (StringLiteral Env.dateTok) eq_refl)
    as (_ & _ & H).
  refine (H eq_refl Env.createdTok Env.dateTok
            (time.mkTime 2021 1 1 0 0 0 0 time.UTC) eq_refl eq_refl eq_refl _).
  left; split; reflexivity.
Defined.

(** C7, as stated, fails for the glob-match operator: [name GLOB "a*"]
    is converted and validates without diagnostics, while with the
    operands exchanged the same conversion takes place and validation
    reports both operands. *)
Lemma swapped_glob_comparison_diagnostics :
  IsComparison Env.opGlob = true
  /\ snd (Env.Process
            (NewExpressionProcessor
               (BinaryExpression Env.opGlob (Identifier Env.nameTok)
                  (StringLiteral Env.globTok)) Env.oracle)) =
     (Some (BinaryExpression Env.opGlob (Identifier Env.nameTok)
              (GlobLiteral (mkGlob "a*") Env.globTok)),
      [])
  /\ snd (Env.Process
            (NewExpressionProcessor
               (BinaryExpression Env.opGlob (StringLiteral Env.globTok)
                  (Identifier Env.nameTok)) Env.oracle)) =
     (Some (BinaryExpression Env.opGlob (GlobLiteral (mkGlob "a*") Env.globTok)
              (Identifier Env.nameTok)),
      ["1:6: Argument on LHS has invalid type: Glob. Allowed types are: String";
       "1:6: Argument on RHS has invalid type: String. Allowed types are: Glob"])
  /\ DiagnosticKinds
       (BinaryExpression Env.opGlob (Identifier Env.nameTok)
          (GlobLiteral (mkGlob "a*") Env.globTok)) Env.oracle = []
  /\ DiagnosticKinds
       (BinaryExpression Env.opGlob (GlobLiteral (mkGlob "a*") Env.globTok)
          (Identifier Env.nameTok)) Env.oracle =
     ["Argument on LHS has invalid type: %v. Allowed types are: %v";
      "Argument on RHS has invalid type: %v. Allowed types are: %v"].
Proof. repeat split; reflexivity. Qed.

(** [name AND "literal"]. *)
Lemma logical_identifier_and_literal_witness :
  IsComparison Env.opAnd = false
  /\ Env.Validate
       (BinaryExpression Env.opAnd (Identifier Env.nameTok)
          (StringLiteral Env.literalTok)) Env.oracle =
     ["1:6: Operands of a logical operator must resolve to boolean values";
      "1:6: Operands of a logical operator must resolve to boolean values"].
Proof.
  split; [ reflexivity | ].
  unfold Env.Validate.
  rewrite (logical_identifier_and_literal Env.parserPos Env.oracle Env.opAnd
             Env.nameTok Env.literalTok eq_refl).
  reflexivity.
Defined.

(** C8, as stated, fails: [name AND "literal"] yields two diagnostics,
    not exactly one. *)
Lemma logical_identifier_and_literal_two_diagnostics :
  IsComparison Env.opAnd = false
  /\ List.length
       (Env.Validate
          (BinaryExpression Env.opAnd (Identifier Env.nameTok)
             (StringLiteral Env.literalTok)) Env.oracle) = 2%nat
  /\ ~ (exists d,
          Env.Validate
            (BinaryExpression Env.opAnd (Identifier Env.nameTok)
               (StringLiteral Env.literalTok)) Env.oracle = [d]).
Proof.
  split; [ reflexivity | split; [ reflexivity | ] ].
  intros [d H]. discriminate H.
Qed.

(** [nope AND "literal"] with [nope] unknown: two diagnostics at the
    position of the binary expression (column 6), none for the unknown
    field at column 1. *)
Lemma logical_operand_not_recursed_witness :
  IsComparison Env.opAnd = false
  /\ Env.Validate (Identifier Env.unknownTok) Env.oracle = ["1:1: Invalid field: nope"]
  /\ Env.Validate
       (BinaryExpression Env.opAnd (Identifier Env.unknownTok)
          (StringLiteral Env.literalTok)) Env.oracle =
     ["1:6: Operands of a logical operator must resolve to boolean values";
      "1:6: Operands of a logical operator must resolve to boolean values"].
Proof.
  split; [ reflexivity | split; [ reflexivity | ] ].
  destruct (logical_operand_not_recursed Env.parserPos Env.oracle Env.opAnd
              (Identifier Env.unknownTok) (StringLiteral Env.literalTok) eq_refl)
    as (H & _).
  unfold Env.Validate. rewrite H. reflexivity.
Defined.

(** ** General helpers: properties *)

(** X1. [Min] is the greatest lower bound of its operands: it is below
    both, it is one of them, anything below both is below it, and the
    order of the operands does not matter. *)
Theorem Min_greatest_lower_bound (x y : Z) :
  (Min x y <= x)%Z /\ (Min x y <= y)%Z
  /\ (Min x y = x \/ Min x y = y)
  /\ (forall z, (z <= x)%Z -> (z <= y)%Z -> (z <= Min x y)%Z)
  /\ Min x y = Min y x.
Proof.
  unfold Min.
  destruct (Z.ltb_spec x y), (Z.ltb_spec y x); repeat split; try lia; auto.
Qed.

(** X2. On every [int], the minimum included, [Abs] is the mathematical
    absolute value: negating the minimum wraps around to itself, and
    its conversion to [uint] is the magnitude.  The result is a [uint]. *)
Theorem Abs_is_absolute_value (intSize x : Z) :
  (0 < intSize)%Z ->
  (- 2 ^ (intSize - 1) <= x < 2 ^ (intSize - 1))%Z ->
  Abs intSize x = Z.abs x /\ (0 <= Abs intSize x < 2 ^ intSize)%Z.
Proof.
  intros Hsize Hx.
  assert (Hpow : (2 ^ intSize = 2 * 2 ^ (intSize - 1))%Z).
  { replace intSize with (Z.succ (intSize - 1)) at 1 by lia.
    apply Z.pow_succ_r. lia. }
  assert (Hpos : (0 < 2 ^ (intSize - 1))%Z) by (apply Z.pow_pos_nonneg; lia).
  unfold Abs, toInt, toUint. rewrite Hpow.
  set (h := (2 ^ (intSize - 1))%Z) in *.
  destruct (Z.ltb_spec x 0) as [Hneg | Hnonneg].
  - destruct (Z.eq_dec x (- h)) as [-> | Hne].
    + replace (- - h + h)%Z with (0 + 1 * (2 * h))%Z by lia.
      rewrite Z.mod_add by lia. rewrite Z.mod_0_l by lia.
      replace (0 - h)%Z with (h + (-1) * (2 * h))%Z by lia.
      rewrite Z.mod_add by lia. rewrite Z.mod_small by lia. lia.
    + rewrite (Z.mod_small (- x + h)) by lia.
      replace (- x + h - h)%Z with (- x)%Z by lia.
      rewrite Z.mod_small by lia. lia.
  - rewrite Z.mod_small by lia. lia.
Qed.

Lemma Abs_is_absolute_value_witness :
  (0 < 64)%Z
  /\ (- 2 ^ (64 - 1) <= - 2 ^ 63 < 2 ^ (64 - 1))%Z
  /\ Abs 64 (- 2 ^ 63) = (2 ^ 63)%Z.
Proof.
  split; [ lia | split; [ lia | ] ].
  exact (proj1 (Abs_is_absolute_value 64 (- 2 ^ 63) eq_refl
                  (conj (Z.le_refl _) eq_refl))).
Defined.

(** *** Display of non-printable characters *)

Lemma upto_forall (n : nat) (P : Z -> bool) :
  forallb P (upto n) = true ->
  forall z, (0 <= z < Z.of_nat n)%Z -> P z = true.
Proof.
  intros H z Hz. rewrite forallb_forall in H. apply H.
  unfold upto. replace z with (Z.of_nat (Z.to_nat z)) by lia.
  apply in_map, in_seq. lia.
Qed.

(** X3. On ASCII, [nonPrintableCharString] is the caret notation: a
    control character (0 to 31, and 127) is shown as a caret followed by
    the character 64 places away (its code with bit 6 flipped), any other
    character as itself. *)
Theorem nonPrintableCharString_caret_notation (codePoint : Z) :
  (0 <= codePoint < 128)%Z ->
  nonPrintableCharString codePoint =
  if (codePoint <? 32)%Z || (codePoint =? 127)%Z
  then String "^" (String (ascii_of_N (Z.to_N (Z.lxor codePoint 64))) "")
  else String (ascii_of_N (Z.to_N codePoint)) "".
Proof.
  intros H.
  apply String.eqb_eq.
  apply (upto_forall 128
           (fun c => String.eqb (nonPrintableCharString c)
                       (if (c <? 32)%Z || (c =? 127)%Z
                        then String "^" (String (ascii_of_N (Z.to_N (Z.lxor c 64))) "")
                        else String (ascii_of_N (Z.to_N c)) ""))).
  - vm_compute. reflexivity.
  - exact H.
Qed.

Lemma nonPrintableCharString_caret_notation_witness :
  (0 <= 27 < 128)%Z /\ nonPrintableCharString 27 = "^[".
Proof.
  split; [ lia | ].
  rewrite nonPrintableCharString_caret_notation by lia. reflexivity.
Defined.

(** X4. On ASCII, [nonPrintableCharString] is injective: two different
    characters are never shown the same way. *)
Theorem nonPrintableCharString_injective_on_ascii (a b : Z) :
  (0 <= a < 128)%Z ->
  (0 <= b < 128)%Z ->
  nonPrintableCharString a = nonPrintableCharString b ->
  a = b.
Proof.
  intros Ha Hb Heq.
  assert (Hall : forallb
                   (fun x => forallb
                               (fun y => implb (String.eqb (nonPrintableCharString x)
                                                           (nonPrintableCharString y))
                                               (x =? y)%Z)
                               (upto 128))
                   (upto 128) = true) by (vm_compute; reflexivity).
  pose proof (upto_forall 128 _ Hall a Ha) as Hrow. cbv beta in Hrow.
  pose proof (upto_forall 128 _ Hrow b Hb) as Hcell. cbv beta in Hcell.
  rewrite Heq, String.eqb_refl in Hcell. simpl in Hcell.
  apply Z.eqb_eq. exact Hcell.
Qed.

Lemma nonPrintableCharString_injective_on_ascii_witness :
  (0 <= 1 < 128)%Z /\ (0 <= 1 < 128)%Z
  /\ nonPrintableCharString 1 = nonPrintableCharString 1 /\ 1%Z = 1%Z.
Proof.
  assert (H1 : (0 <= 1 < 128)%Z) by lia.
  split; [ exact H1 | split; [ exact H1 | split; [ reflexivity | ] ] ].
  exact (nonPrintableCharString_injective_on_ascii 1 1 H1 H1 eq_refl).
Defined.

Lemma byte_range (x : Z) : (0 <= byte x < 256)%Z.
Proof.
  unfold byte. change 255%Z with (Z.ones 8).
  rewrite Z.land_ones by lia. apply Z.mod_pos_bound. reflexivity.
Qed.

Lemma utf8_bytes_not_control (y : Z) :
  (0 <= y < 256)%Z ->
  negb (isControlByte (ascii_of_N (Z.to_N (Z.lor 0xC0 y)))) = true
  /\ negb (isControlByte (ascii_of_N (Z.to_N (Z.lor 0xE0 y)))) = true
  /\ negb (isControlByte (ascii_of_N (Z.to_N (Z.lor 0xF0 y)))) = true
  /\ negb (isControlByte (ascii_of_N (Z.to_N (Z.lor 0x80 (Z.land y 0x3F))))) = true.
Proof.
  intros Hy.
  assert (Hall : forallb
                   (fun y =>
                      negb (isControlByte (ascii_of_N (Z.to_N (Z.lor 0xC0 y))))
                      && negb (isControlByte (ascii_of_N (Z.to_N (Z.lor 0xE0 y))))
                      && negb (isControlByte (ascii_of_N (Z.to_N (Z.lor 0xF0 y))))
                      && negb (isControlByte
                                 (ascii_of_N (Z.to_N (Z.lor 0x80 (Z.land y 0x3F))))))
                   (upto 256) = true) by (vm_compute; reflexivity).
  pose proof (upto_forall 256 _ Hall y Hy) as H. cbv beta in H.
  repeat (apply andb_true_iff in H; destruct H as [H ?]).
  repeat split; assumption.
Qed.

(** X5. For every non-negative rune, the string
    [nonPrintableCharString] returns holds no ASCII control byte (no
    byte below 32 and no byte 127): control characters are shown in caret
    notation, printable ASCII as itself, and every byte of a multi-byte
    UTF-8 encoding is 128 or above. *)
Theorem nonPrintableCharString_no_control_bytes (codePoint : Z) :
  (0 <= codePoint < 2 ^ 31)%Z ->
  forallb (fun c => negb (isControlByte c))
          (list_ascii_of_string (nonPrintableCharString codePoint)) = true.
Proof.
  intros Hcp.
  destruct (Z.lt_ge_cases codePoint 128) as [Hsmall | Hlarge].
  - apply (upto_forall 128
             (fun c => forallb (fun ch => negb (isControlByte ch))
                         (list_ascii_of_string (nonPrintableCharString c)))).
    + vm_compute. reflexivity.
    + lia.
  - unfold nonPrintableCharString.
    replace (codePoint <? 32)%Z with false by (symmetry; apply Z.ltb_ge; lia).
    replace (codePoint =? 127)%Z with false by (symmetry; apply Z.eqb_neq; lia).
    unfold encodeRune, uint32.
    rewrite Z.mod_small by (change (2 ^ 31)%Z with 2147483648%Z in Hcp;
                            change (2 ^ 32)%Z with 4294967296%Z; lia).
    replace (codePoint <=? 127)%Z with false by (symmetry; apply Z.leb_gt; lia).
    pose proof (fun x => utf8_bytes_not_control (byte x) (byte_range x)) as Hb.
    destruct (codePoint <=? 2047)%Z;
      [| destruct ((MaxRune <? codePoint)%Z
                   || (55296 <=? codePoint)%Z && (codePoint <=? 57343)%Z);
         [| destruct (codePoint <=? 65535)%Z ] ];
      cbn [orb]; unfold bytesToString; rewrite list_ascii_of_string_of_list_ascii;
      cbn [map forallb];
      repeat (apply andb_true_iff; split); try reflexivity; apply Hb.
Qed.

Lemma nonPrintableCharString_no_control_bytes_witness :
  (0 <= 233 < 2 ^ 31)%Z
  /\ forallb (fun c => negb (isControlByte c))
             (list_ascii_of_string (nonPrintableCharString 233)) = true.
Proof.
  assert (H : (0 <= 233 < 2 ^ 31)%Z) by (split; [ lia | reflexivity ]).
  split; [ exact H | ].
  exact (nonPrintableCharString_no_control_bytes 233 H).
Defined.

(** ** The processor: further properties *)

Section MoreProperties.

Variable time_Parse : string -> string -> option time.Time.
Variable glob_Compile : string -> option Glob.
Variable regexp_Compile : string -> option Regexp.
Variable parserPos : Expression -> QueryScannerPos.

Local Abbreviation convertComparison' :=
  (convertComparison time_Parse glob_Compile regexp_Compile).
Local Abbreviation ConvertTypes' :=
  (ConvertTypes time_Parse glob_Compile regexp_Compile).
Local Abbreviation Validate' := (Validate parserPos).
Local Abbreviation Process' :=
  (Process time_Parse glob_Compile regexp_Compile parserPos).
Local Abbreviation GenerateExpressionError' := (GenerateExpressionError parserPos).
Local Abbreviation inferLiteral' :=
  (inferLiteral time_Parse glob_Compile regexp_Compile).

Lemma Identifier_FieldType_fieldHasType
      (ftd : FieldTypeDescriptor) (identifier : QueryToken) (t : FieldType) :
  t <> FtInvalid ->
  (Expression_FieldType (Identifier identifier) ftd = t <->
   fieldHasType ftd identifier t = true).
Proof.
  intros Ht. unfold fieldHasType; simpl.
  destruct (ftd (value identifier)) as [ft ex]. destruct ex; simpl.
  - rewrite FieldType_eqb_eq. reflexivity.
  - split; intros H; [ congruence | discriminate H ].
Qed.

(** *** Glob and regex inference *)

Lemma ConvertTypes_string_field
        (ftd : FieldTypeDescriptor) (op : Operator) (field s : QueryToken) :
  IsComparison op = true ->
  Expression_FieldType (Identifier field) ftd = FtString ->
  let converted :=
    match tokenType (operator op) with
    | QtkCmpGlob =>
        match glob_Compile (value s) with
        | Some g => GlobLiteral g s
        | None => StringLiteral s
        end
    | QtkCmpRegexp =>
        match regexp_Compile (value s) with
        | Some re => RegexLiteral re s
        | None => StringLiteral s
        end
    | _ => StringLiteral s
    end in
  ConvertTypes' (BinaryExpression op (Identifier field) (StringLiteral s)) ftd =
  BinaryExpression op (Identifier field) converted
  /\ ConvertTypes' (BinaryExpression op (StringLiteral s) (Identifier field)) ftd =
     BinaryExpression op converted (Identifier field).
Proof.
  intros Hcmp Htype converted.
  apply Identifier_FieldType_fieldHasType in Htype; [| discriminate ].
  assert (Hinfer : inferLiteral' ftd op field s =
                   match converted with
                   | StringLiteral _ => None
                   | lit => Some lit
                   end).
  { unfold inferLiteral, converted.
    rewrite (fieldHasType_String_not_Date _ _ Htype), Htype.
    destruct (QueryTokenType_eq_dec (tokenType (operator op)) QtkCmpGlob) as [Hg | Hg].
    - rewrite Hg. destruct (glob_Compile (value s)); reflexivity.
    - destruct (QueryTokenType_eq_dec (tokenType (operator op)) QtkCmpRegexp)
        as [Hr | Hr].
      + rewrite Hr. destruct (regexp_Compile (value s)); reflexivity.
      + destruct (tokenType (operator op)); try reflexivity; congruence. }
  split.
  - rewrite (ConvertTypes_comparison _ _ _ _ _ _ _ Hcmp), convertComparison_candidate.
    unfold candidate; simpl. rewrite Hinfer.
    unfold converted.
    destruct (tokenType (operator op)); try reflexivity;
      [ destruct (glob_Compile (value s)) | destruct (regexp_Compile (value s)) ];
      reflexivity.
  - rewrite (ConvertTypes_comparison _ _ _ _ _ _ _ Hcmp), convertComparison_candidate.
    unfold candidate; simpl. rewrite Hinfer.
    unfold converted.
    destruct (tokenType (operator op)); try reflexivity;
      [ destruct (glob_Compile (value s)) | destruct (regexp_Compile (value s)) ];
      reflexivity.
Qed.

(** X6. In a comparison between an identifier whose field type is String
    and a string literal, in either order: under the glob-match operator
    the string literal becomes a glob literal when its text compiles as
    a glob, under the regex-match operator a regex literal when its text
    compiles as a regular expression, each holding the compiled pattern
    and the token of the string literal; when the compilation fails, and
    under any other comparison operator, it stays a string literal. *)
Theorem string_field_inference
        (ftd : FieldTypeDescriptor) (op : Operator) (field s : QueryToken) :
  IsComparison op = true ->
  Expression_FieldType (Identifier field) ftd = FtString ->
  let converted :=
    match tokenType (operator op) with
    | QtkCmpGlob =>
        match glob_Compile (value s) with
        | Some g => GlobLiteral g s
        | None => StringLiteral s
        end
    | QtkCmpRegexp =>
        match regexp_Compile (value s) with
        | Some re => RegexLiteral re s
        | None => StringLiteral s
        end
    | _ => StringLiteral s
    end in
  ConvertTypes' (BinaryExpression op (Identifier field) (StringLiteral s)) ftd =
  BinaryExpression op (Identifier field) converted
  /\ ConvertTypes' (BinaryExpression op (StringLiteral s) (Identifier field)) ftd =
     BinaryExpression op converted (Identifier field).
Proof. apply ConvertTypes_string_field. Qed.

(** *** What the conversion depends on *)

Lemma candidate_fieldNames (b : BinaryExpressionFields) (i s : QueryToken)
      (p : OperandPtr) :
  candidate b = Some (i, s, p) ->
  In (value i) (fieldNames (lhs b) ++ fieldNames (rhs b)).
Proof.
  destruct b as [op l r]. unfold candidate; simpl.
  destruct l, r; intros H; try discriminate H; injection H as <- <- <-;
    simpl; auto.
Qed.

Lemma fieldNames_store (b : BinaryExpressionFields) (i s : QueryToken)
      (p : OperandPtr) (lit : Expression) :
  candidate b = Some (i, s, p) ->
  TypedLiteralOf s lit ->
  fieldNames (lhs (store p lit b)) = fieldNames (lhs b)
  /\ fieldNames (rhs (store p lit b)) = fieldNames (rhs b).
Proof.
  destruct b as [op l r]. unfold candidate; simpl.
  destruct l, r; intros H; try discriminate H; injection H as <- <- <-;
    intros Hlit; destruct Hlit; split; reflexivity.
Qed.

Lemma fieldNames_ConvertTypes (e : Expression) (ftd : FieldTypeDescriptor) :
  fieldNames (ConvertTypes' e ftd) = fieldNames e.
Proof.
  induction e as [ | | | | | | e IH | op e IH | op l IHl r IHr ];
    try reflexivity.
  - simpl. destruct (isLogicalExpression e); [ exact IH | reflexivity ].
  - simpl. destruct (isLogicalExpression e); [ exact IH | reflexivity ].
  - destruct (IsComparison op) eqn:Hcmp.
    + rewrite (ConvertTypes_comparison _ _ _ _ _ _ _ Hcmp), convertComparison_candidate.
      destruct (candidate (mkBinary op l r)) as [[[i s] p]|] eqn:Hc; [| reflexivity ].
      simpl bOperator.
      destruct (inferLiteral' ftd op i s) as [lit|] eqn:Hi; [| reflexivity ].
      apply inferLiteral_typed in Hi.
      destruct (fieldNames_store _ _ _ _ lit Hc Hi) as [H1 H2].
      unfold toExpression. simpl fieldNames. rewrite H1, H2. reflexivity.
    + simpl. rewrite Hcmp. simpl.
      f_equal; [ destruct (isLogicalExpression l) | destruct (isLogicalExpression r) ];
        auto.
Qed.

Lemma inferLiteral_agree (ftd1 ftd2 : FieldTypeDescriptor) (op : Operator)
      (i s : QueryToken) :
  ftd1 (value i) = ftd2 (value i) ->
  inferLiteral' ftd1 op i s = inferLiteral' ftd2 op i s.
Proof. intros H. unfold inferLiteral, fieldHasType. rewrite H. reflexivity. Qed.

Lemma ConvertTypes_agree (e : Expression) (ftd1 ftd2 : FieldTypeDescriptor) :
  (forall name, In name (fieldNames e) -> ftd1 name = ftd2 name) ->
  ConvertTypes' e ftd1 = ConvertTypes' e ftd2.
Proof.
  induction e as [ | | | | | | e IH | op e IH | op l IHl r IHr ];
    intros Hagree; try reflexivity.
  - simpl. rewrite (IH Hagree). reflexivity.
  - simpl. rewrite (IH Hagree). reflexivity.
  - destruct (IsComparison op) eqn:Hcmp.
    + rewrite !(ConvertTypes_comparison _ _ _ _ _ _ _ Hcmp), !convertComparison_candidate.
      destruct (candidate (mkBinary op l r)) as [[[i s] p]|] eqn:Hc; [| reflexivity ].
      rewrite (inferLiteral_agree ftd1 ftd2); [ reflexivity |].
      apply Hagree. exact (candidate_fieldNames _ _ _ _ Hc).
    + simpl. rewrite Hcmp. simpl.
      rewrite IHl by (intros n Hn; apply Hagree; simpl; apply in_or_app; auto).
      rewrite IHr by (intros n Hn; apply Hagree; simpl; apply in_or_app; auto).
      reflexivity.
Qed.

Lemma determineFieldType_agree (e : Expression) (ftd1 ftd2 : FieldTypeDescriptor) :
  (forall name, In name (fieldNames e) -> ftd1 name = ftd2 name) ->
  determineFieldType e ftd1 = determineFieldType e ftd2.
Proof.
  intros Hagree. destruct e; try reflexivity.
  unfold determineFieldType; simpl. rewrite (Hagree (value identifier)); simpl; auto.
Qed.

Lemma ValidateWith_agree (E : Type) (mkError : Expression -> string -> list string -> E)
      (e : Expression) (ftd1 ftd2 : FieldTypeDescriptor) :
  (forall name, In name (fieldNames e) -> ftd1 name = ftd2 name) ->
  ValidateWith mkError e ftd1 = ValidateWith mkError e ftd2.
Proof.
  induction e as [ i | | | | | | e IH | op e IH | op l IHl r IHr ];
    intros Hagree; try reflexivity.
  - simpl. rewrite (Hagree (value i)); simpl; auto.
  - simpl. rewrite (IH Hagree). reflexivity.
  - simpl. rewrite (IH Hagree). reflexivity.
  - assert (Hl : forall n, In n (fieldNames l) -> ftd1 n = ftd2 n)
      by (intros n Hn; apply Hagree; simpl; apply in_or_app; auto).
    assert (Hr : forall n, In n (fieldNames r) -> ftd1 n = ftd2 n)
      by (intros n Hn; apply Hagree; simpl; apply in_or_app; auto).
    simpl. rewrite (IHl Hl), (IHr Hr).
    rewrite (determineFieldType_agree l ftd1 ftd2 Hl).
    rewrite (determineFieldType_agree r ftd1 ftd2 Hr).
    reflexivity.
Qed.

(** X7. The processor consults the oracle only for the fields the
    expression names: with two oracles that agree on those fields, the
    conversion gives the same tree, validation the same diagnostics, and
    [Process] the same expression and diagnostics. *)
Theorem oracle_relevance (e : Expression) (ftd1 ftd2 : FieldTypeDescriptor) :
  (forall name, In name (fieldNames e) -> ftd1 name = ftd2 name) ->
  ConvertTypes' e ftd1 = ConvertTypes' e ftd2
  /\ Validate' e ftd1 = Validate' e ftd2
  /\ snd (Process' (NewExpressionProcessor e ftd1)) =
     snd (Process' (NewExpressionProcessor e ftd2)).
Proof.
  intros Hagree.
  assert (Hconv := ConvertTypes_agree e ftd1 ftd2 Hagree).
  split; [ exact Hconv | split ].
  - apply ValidateWith_agree. exact Hagree.
  - unfold Process. cbn [ep_expression ep_fieldTypeDescriptor].
    destruct (isLogicalExpression e); [| reflexivity ].
    cbn [snd]. rewrite Hconv. f_equal.
    apply ValidateWith_agree.
    rewrite fieldNames_ConvertTypes. exact Hagree.
Qed.

(** X8. The conversion changes nothing in a tree that names no field of
    type Date or String: only comparisons with such a field are ever
    converted. *)
Theorem ConvertTypes_needs_date_or_string_field
        (e : Expression) (ftd : FieldTypeDescriptor) :
  (forall name t,
      In name (fieldNames e) -> ftd name = (t, true) ->
      t <> FtDate /\ t <> FtString) ->
  ConvertTypes' e ftd = e.
Proof.
  induction e as [ | | | | | | e IH | op e IH | op l IHl r IHr ];
    intros Hfields; try reflexivity.
  - simpl. rewrite (IH Hfields). destruct (isLogicalExpression e); reflexivity.
  - simpl. rewrite (IH Hfields). destruct (isLogicalExpression e); reflexivity.
  - destruct (IsComparison op) eqn:Hcmp.
    + rewrite (ConvertTypes_comparison _ _ _ _ _ _ _ Hcmp), convertComparison_candidate.
      destruct (candidate (mkBinary op l r)) as [[[i s] p]|] eqn:Hc; [| reflexivity ].
      pose proof (candidate_fieldNames _ _ _ _ Hc) as Hin. simpl in Hin.
      assert (Hnone : inferLiteral' ftd op i s = None).
      { unfold inferLiteral, fieldHasType.
        destruct (ftd (value i)) as [t ex] eqn:Hf.
        destruct ex; [| reflexivity ].
        destruct (Hfields (value i) t Hin Hf) as [Hd Hs].
        destruct t; try reflexivity; congruence. }
      simpl bOperator. rewrite Hnone. reflexivity.
    + simpl. rewrite Hcmp. simpl.
      rewrite IHl by (intros n t Hn; apply Hfields; simpl; apply in_or_app; auto).
      rewrite IHr by (intros n t Hn; apply Hfields; simpl; apply in_or_app; auto).
      destruct (isLogicalExpression l), (isLogicalExpression r); reflexivity.
Qed.

(** *** Validation decides well-typedness *)

Lemma isLogicalExpression_validatable (e : Expression) :
  isLogicalExpression e = true -> isValidatableExpression e = true.
Proof. destruct e; intros H; try discriminate H; reflexivity. Qed.

Lemma WellTyped_logical (ftd : FieldTypeDescriptor) (e : Expression) :
  WellTyped ftd e -> isLogicalExpression e = true.
Proof. intros H; destruct H; reflexivity. Qed.

Lemma ValueOf_iff (E : Type) (mkError : Expression -> string -> list string -> E)
      (ftd : FieldTypeDescriptor) (e : Expression) (t : FieldType) :
  ValueOf ftd e t <->
  determineFieldType e ftd = (t, true)
  /\ operandDiagnosticsWith mkError e ftd = [].
Proof.
  split.
  - intros H. destruct H; try (split; reflexivity).
    unfold determineFieldType, operandDiagnosticsWith; simpl.
    rewrite H. split; reflexivity.
  - intros [Ht Hd].
    destruct e; unfold determineFieldType in Ht; simpl in Ht;
      try discriminate Ht.
    1: { unfold operandDiagnosticsWith in Hd; simpl in Hd.
         destruct (ftd (value identifier)) as [ft ex] eqn:Hf.
         destruct ex; simpl in Hd; [| discriminate Hd ].
         injection Ht as <-. constructor. exact Hf. }
    all: injection Ht as <-; constructor.
Qed.

Lemma comparison_types_checked
      (E : Type) (x y z : E) (op : Operator) (lhsType rhsType : FieldType) :
  (if isOperandTypeRestricted op
   then
     if negb (FieldType_eqb lhsType FtInvalid || FieldType_eqb rhsType FtInvalid)
     then
       if negb (isValidArgument op bopRight rhsType)
       then (if negb (isValidArgument op bopLeft lhsType) then [x] else []) ++ [y]
       else if negb (isValidArgument op bopLeft lhsType) then [x] else []
     else []
   else
     if negb (FieldType_eqb lhsType rhsType)
        && negb (FieldType_eqb lhsType FtInvalid || FieldType_eqb rhsType FtInvalid)
     then [z]
     else []) = []
  <-> typesAgree op lhsType rhsType.
Proof.
  unfold typesAgree, isOperandTypeRestricted, isValidArgument.
  destruct op as [[kind text from to]]; simpl.
  destruct kind, lhsType, rhsType; simpl; split; intros H;
    try reflexivity; try discriminate H;
    try (left; reflexivity); try (right; left; reflexivity);
    try (right; right; first [ reflexivity | split; reflexivity ]);
    destruct H as [H | [H | H]]; try discriminate H;
    destruct H as [H1 H2]; first [ discriminate H1 | discriminate H2 ].
Qed.

Lemma Validate_comparison_nil
      (E : Type) (mkError : Expression -> string -> list string -> E)
      (ftd : FieldTypeDescriptor) (op : Operator) (l r : Expression) :
  IsComparison op = true ->
  (ValidateWith mkError (BinaryExpression op l r) ftd = [] <->
   exists lhsType rhsType,
     ValueOf ftd l lhsType /\ ValueOf ftd r rhsType /\ typesAgree op lhsType rhsType).
Proof.
  intros Hcmp.
  assert (Hshape :
            ValidateWith mkError (BinaryExpression op l r) ftd = [] <->
            exists lhsType rhsType,
              (determineFieldType l ftd = (lhsType, true)
               /\ operandDiagnosticsWith mkError l ftd = [])
              /\ (determineFieldType r ftd = (rhsType, true)
                  /\ operandDiagnosticsWith mkError r ftd = [])
              /\ typesAgree op lhsType rhsType).
  { simpl. rewrite Hcmp. simpl.
    change (if isValidatableExpression l then ValidateWith mkError l ftd else [])
      with (operandDiagnosticsWith mkError l ftd).
    change (if isValidatableExpression r then ValidateWith mkError r ftd else [])
      with (operandDiagnosticsWith mkError r ftd).
    destruct (determineFieldType l ftd) as [lt lv].
    destruct (determineFieldType r ftd) as [rt rv].
    destruct (operandDiagnosticsWith mkError l ftd) as [| dl vl].
    - destruct (operandDiagnosticsWith mkError r ftd) as [| dr vr].
      + destruct lv, rv; cbn [andb negb app].
        * rewrite comparison_types_checked. split.
          -- intros H. exists lt, rt. auto.
          -- intros (lt' & rt' & [Hl _] & [Hr _] & H). congruence.
        * split; [ intros H; discriminate H
                 | intros (lt' & rt' & [Hl _] & [Hr _] & H); discriminate Hr ].
        * split; [ intros H; discriminate H
                 | intros (lt' & rt' & [Hl _] & [Hr _] & H); discriminate Hl ].
        * split; [ intros H; discriminate H
                 | intros (lt' & rt' & [Hl _] & [Hr _] & H); discriminate Hl ].
      + split.
        * intros H. exfalso.
          repeat match type of H with
                 | context [if ?c then _ else _] => destruct c
                 end; discriminate H.
        * intros (lt' & rt' & [_ _] & [_ Hr] & _). discriminate Hr.
    - split.
      + intros H. exfalso.
        repeat match type of H with
               | context [if ?c then _ else _] => destruct c
               end; discriminate H.
      + intros (lt' & rt' & [_ Hl] & _). discriminate Hl. }
  rewrite Hshape. split.
  - intros (lt & rt & Hl & Hr & H). exists lt, rt.
    split; [ apply (ValueOf_iff E mkError); exact Hl
           | split; [ apply (ValueOf_iff E mkError); exact Hr | exact H ] ].
  - intros (lt & rt & Hl & Hr & H). exists lt, rt.
    split; [ apply (ValueOf_iff E mkError); exact Hl
           | split; [ apply (ValueOf_iff E mkError); exact Hr | exact H ] ].
Qed.

Lemma ValidateWith_WellTyped
      (E : Type) (mkError : Expression -> string -> list string -> E)
      (ftd : FieldTypeDescriptor) (e : Expression) :
  isLogicalExpression e = true ->
  (ValidateWith mkError e ftd = [] <-> WellTyped ftd e).
Proof.
  induction e as [ | | | | | | e IH | op e IH | op l IHl r IHr ];
    intros Hlog; try discriminate Hlog.
  - simpl. destruct (isLogicalExpression e) eqn:He; simpl.
    + rewrite (isLogicalExpression_validatable e He), (IH eq_refl).
      split; [ intros H; constructor; exact H | intros H; inversion H; assumption ].
    + split; [ intros H; discriminate H
             | intros H; inversion H as [e' H' | | |]; subst;
               apply WellTyped_logical in H'; congruence ].
  - simpl. destruct (isLogicalExpression e) eqn:He; simpl.
    + rewrite (isLogicalExpression_validatable e He), (IH eq_refl).
      split; [ intros H; constructor; exact H | intros H; inversion H; assumption ].
    + split; [ intros H; discriminate H
             | intros H; inversion H as [| op' e' H' | |]; subst;
               apply WellTyped_logical in H'; congruence ].
  - destruct (IsComparison op) eqn:Hcmp.
    + rewrite (Validate_comparison_nil E mkError ftd op l r Hcmp). split.
      * intros (lt & rt & Hl & Hr & H). eapply WellTypedComparison; eauto.
      * intros H. inversion H; subst; [ congruence | eauto ].
    + simpl. rewrite Hcmp. simpl. split.
      * intros H. apply app_eq_nil in H. destruct H as [Hl Hr].
        destruct (isLogicalExpression l) eqn:Hll; [| discriminate Hl ].
        destruct (isLogicalExpression r) eqn:Hlr; [| discriminate Hr ].
        simpl in Hl, Hr.
        apply WellTypedLogical;
          [ exact Hcmp | apply (IHl eq_refl); exact Hl | apply (IHr eq_refl); exact Hr ].
      * intros H. inversion H as [| | op' l' r' _ Hl Hr | ]; subst; [| congruence ].
        rewrite (WellTyped_logical _ _ Hl), (WellTyped_logical _ _ Hr). simpl.
        apply (IHl (WellTyped_logical _ _ Hl)) in Hl.
        apply (IHr (WellTyped_logical _ _ Hr)) in Hr.
        rewrite Hl, Hr. reflexivity.
Qed.

(** X9. Validation decides well-typedness: a logical expression
    validates without diagnostics exactly when it is well typed, that
    is when every parenthesis, negation and logical connective holds
    logical expressions only and every comparison compares two values
    (literals, or identifiers of known fields) whose types agree. *)
Theorem Validate_empty_iff_well_typed (ftd : FieldTypeDescriptor) (e : Expression) :
  isLogicalExpression e = true ->
  (Validate' e ftd = [] <-> WellTyped ftd e).
Proof. apply ValidateWith_WellTyped. Qed.

(** X10. [Process] returns no diagnostics exactly when the root is a
    logical expression whose converted tree is well typed; it then
    returns that converted tree. *)
Theorem Process_no_diagnostics (ep : ExpressionProcessor) :
  let converted :=
    ConvertTypes' (ep_expression ep) (ep_fieldTypeDescriptor ep) in
  (snd (snd (Process' ep)) = [] <->
   isLogicalExpression (ep_expression ep) = true
   /\ WellTyped (ep_fieldTypeDescriptor ep) converted)
  /\ (snd (snd (Process' ep)) = [] -> fst (snd (Process' ep)) = Some converted).
Proof.
  destruct ep as [root ftd]. unfold Process. cbn [ep_expression ep_fieldTypeDescriptor].
  destruct (isLogicalExpression root) eqn:Hroot; cbn [snd fst].
  - split.
    + rewrite <- (isLogicalExpression_ConvertTypes
                    time_Parse glob_Compile regexp_Compile root ftd) in Hroot.
      unfold Validate. rewrite (ValidateWith_WellTyped _ _ ftd _ Hroot).
      split; [ intros H; split; [ reflexivity | exact H ] | intros [_ H]; exact H ].
    + reflexivity.
  - split.
    + split; [ intros H; discriminate H | intros [H _]; discriminate H ].
    + intros H; discriminate H.
Qed.

(** *** Where diagnostics come from *)

Lemma ValidateWith_nodes
      (E : Type) (mkError : Expression -> string -> list string -> E)
      (ftd : FieldTypeDescriptor) (e : Expression) (d : E) :
  In d (ValidateWith mkError e ftd) ->
  exists node errorMessage args,
    SubExpression node e
    /\ isValidatableExpression node = true
    /\ d = mkError node errorMessage args.
Proof.
  revert d.
  induction e as [ i | | | | | | e IH | op e IH | op l IHl r IHr ];
    intros d Hd; try (destruct Hd; fail).
  - simpl in Hd. destruct (negb (snd (ftd (value i)))); [| destruct Hd ].
    destruct Hd as [<- | []]. eexists _, _, _.
    split; [ apply SubHere | split; reflexivity ].
  - simpl in Hd. apply in_app_or in Hd. destruct Hd as [Hd | Hd].
    + destruct (negb (isLogicalExpression e)); [| destruct Hd ].
      destruct Hd as [<- | []]. eexists _, _, _.
      split; [ apply SubHere | split; reflexivity ].
    + destruct (isValidatableExpression e); [| destruct Hd ].
      destruct (IH d Hd) as (node & msg & args & Hsub & Hval & ->).
      exists node, msg, args. split; [ apply SubParen; exact Hsub | auto ].
  - simpl in Hd. apply in_app_or in Hd. destruct Hd as [Hd | Hd].
    + destruct (negb (isLogicalExpression e)); [| destruct Hd ].
      destruct Hd as [<- | []]. eexists _, _, _.
      split; [ apply SubHere | split; reflexivity ].
    + destruct (isValidatableExpression e); [| destruct Hd ].
      destruct (IH d Hd) as (node & msg & args & Hsub & Hval & ->).
      exists node, msg, args. split; [ apply SubUnary; exact Hsub | auto ].
  - assert (Hleft : In d (ValidateWith mkError l ftd) ->
                    exists node msg args,
                      SubExpression node (BinaryExpression op l r)
                      /\ isValidatableExpression node = true
                      /\ d = mkError node msg args).
    { intros H. destruct (IHl d H) as (node & msg & args & Hsub & Hval & ->).
      exists node, msg, args. split; [ apply SubLhs; exact Hsub | auto ]. }
    assert (Hright : In d (ValidateWith mkError r ftd) ->
                     exists node msg args,
                       SubExpression node (BinaryExpression op l r)
                       /\ isValidatableExpression node = true
                       /\ d = mkError node msg args).
    { intros H. destruct (IHr d H) as (node & msg & args & Hsub & Hval & ->).
      exists node, msg, args. split; [ apply SubRhs; exact Hsub | auto ]. }
    assert (Hhere : forall msg args,
               exists node msg' args',
                 SubExpression node (BinaryExpression op l r)
                 /\ isValidatableExpression node = true
                 /\ mkError (BinaryExpression op l r) msg args = mkError node msg' args').
    { intros msg args. eexists _, _, _.
      split; [ apply SubHere | split; reflexivity ]. }
    simpl in Hd.
    destruct (determineFieldType l ftd) as [lt lv].
    destruct (determineFieldType r ftd) as [rt rv].
    repeat match type of Hd with
           | context [if ?c then _ else _] => destruct c
           end;
      repeat (apply in_app_or in Hd; destruct Hd as [Hd | Hd]);
      try (destruct Hd as [<- | []]; apply Hhere);
      try (apply Hleft; exact Hd); try (apply Hright; exact Hd);
      destruct Hd.
Qed.

(** X11. Every diagnostic of [Validate] is generated for a node of the
    validated tree, and always for an identifier, a parenthesis, a
    negation or a binary expression: its line and column are those of a
    node that occurs in the tree. *)
Theorem diagnostics_are_positioned_in_the_tree
        (ftd : FieldTypeDescriptor) (e : Expression) (d : error) :
  In d (Validate' e ftd) ->
  exists node errorMessage args,
    SubExpression node e
    /\ isValidatableExpression node = true
    /\ d = GenerateExpressionError' node errorMessage args.
Proof. apply ValidateWith_nodes. Qed.

Lemma SubExpression_logical (s e : Expression) :
  SubExpression s e -> isLogicalExpression s = true -> isLogicalExpression e = true.
Proof. intros H Hs. destruct H; auto. Qed.

(** X12. Validation reports everything: the diagnostics of every logical
    expression that occurs in a tree are among the diagnostics of the
    tree, whatever else is wrong around it. *)
Theorem logical_subexpressions_are_validated
        (ftd : FieldTypeDescriptor) (s e : Expression) :
  SubExpression s e ->
  isLogicalExpression s = true ->
  incl (Validate' s ftd) (Validate' e ftd).
Proof.
  clear time_Parse glob_Compile regexp_Compile.
  intros Hsub Hs. unfold Validate.
  induction Hsub as [ | e Hsub IH | op e Hsub IH | op l r Hsub IH | op l r Hsub IH ].
  - apply incl_refl.
  - pose proof (SubExpression_logical _ _ Hsub Hs) as He.
    simpl. rewrite (isLogicalExpression_validatable e He).
    apply incl_appr. exact IH.
  - pose proof (SubExpression_logical _ _ Hsub Hs) as He.
    simpl. rewrite (isLogicalExpression_validatable e He).
    apply incl_appr. exact IH.
  - pose proof (SubExpression_logical _ _ Hsub Hs) as Hl.
    simpl. rewrite Hl, (isLogicalExpression_validatable l Hl). simpl.
    destruct (determineFieldType l ftd) as [lt lv].
    destruct (determineFieldType r ftd) as [rt rv].
    intros d Hd. apply IH in Hd.
    repeat match goal with
           | |- context [if ?c then _ else _] => destruct c
           end;
      rewrite ?in_app_iff; tauto.
  - pose proof (SubExpression_logical _ _ Hsub Hs) as Hr.
    simpl. rewrite Hr, (isLogicalExpression_validatable r Hr). simpl.
    destruct (determineFieldType l ftd) as [lt lv].
    destruct (determineFieldType r ftd) as [rt rv].
    intros d Hd. apply IH in Hd.
    repeat match goal with
           | |- context [if ?c then _ else _] => destruct c
           end;
      rewrite ?in_app_iff; tauto.
Qed.

(** *** Processing twice *)

Lemma ConvertTypes_of_converted (e : Expression) (ftd : FieldTypeDescriptor) :
  ConvertTypes' (ConvertTypes' e ftd) ftd = ConvertTypes' e ftd.
Proof.
  induction e as [ | | | | | | e IH | op e IH | op l IHl r IHr ];
    try reflexivity.
  - simpl. destruct (isLogicalExpression e) eqn:He.
    + rewrite isLogicalExpression_ConvertTypes, He, IH. reflexivity.
    + rewrite He. reflexivity.
  - simpl. destruct (isLogicalExpression e) eqn:He.
    + rewrite isLogicalExpression_ConvertTypes, He, IH. reflexivity.
    + rewrite He. reflexivity.
  - destruct (IsComparison op) eqn:Hcmp.
    + rewrite (ConvertTypes_comparison _ _ _ _ _ _ _ Hcmp).
      set (c := convertComparison' (mkBinary op l r) ftd).
      assert (Hop : bOperator c = op) by apply bOperator_convertComparison.
      unfold toExpression at 1. rewrite Hop.
      rewrite (ConvertTypes_comparison _ _ _ _ _ _ _ Hcmp).
      replace (mkBinary op (lhs c) (rhs c)) with c
        by (destruct c; simpl in Hop; subst; reflexivity).
      unfold c. rewrite convertComparison_idempotent. reflexivity.
    + simpl. rewrite Hcmp. simpl. rewrite Hcmp. simpl.
      f_equal.
      * destruct (isLogicalExpression l) eqn:Hl.
        -- rewrite isLogicalExpression_ConvertTypes, Hl, IHl. reflexivity.
        -- rewrite Hl. reflexivity.
      * destruct (isLogicalExpression r) eqn:Hr.
        -- rewrite isLogicalExpression_ConvertTypes, Hr, IHr. reflexivity.
        -- rewrite Hr. reflexivity.
Qed.

(** X13. Processing is idempotent: processing what [Process] left (the
    processor with its converted tree) leaves the same processor and
    returns the same expression and the same diagnostics. *)
Theorem Process_idempotent (ep : ExpressionProcessor) :
  Process' (fst (Process' ep)) = Process' ep.
Proof.
  destruct ep as [root ftd]. unfold Process at 2.
  cbn [ep_expression ep_fieldTypeDescriptor].
  destruct (isLogicalExpression root) eqn:Hroot; cbn [fst].
  - unfold Process. cbn [ep_expression ep_fieldTypeDescriptor].
    rewrite isLogicalExpression_ConvertTypes, Hroot, ConvertTypes_of_converted.
    reflexivity.
  - unfold Process. cbn [ep_expression ep_fieldTypeDescriptor].
    rewrite Hroot. reflexivity.
Qed.

(** *** Conversion followed by validation *)

Lemma Process_logical (e : Expression) (ftd : FieldTypeDescriptor) :
  isLogicalExpression e = true ->
  snd (snd (Process' (NewExpressionProcessor e ftd))) =
  Validate' (ConvertTypes' e ftd) ftd.
Proof.
  intros He. unfold Process. cbn [ep_expression ep_fieldTypeDescriptor].
  rewrite He. reflexivity.
Qed.

(** X14. A field of type String matched against a string literal, the
    field on the left: under the glob-match operator [Process] returns no
    diagnostic when the text compiles as a glob and otherwise exactly
    one, "Argument on RHS has invalid type: String. Allowed types are:
    Glob"; under the regex-match operator likewise with a regular
    expression and "Allowed types are: Regex". *)
Theorem pattern_match_outcome
        (ftd : FieldTypeDescriptor) (op : Operator) (field s : QueryToken) :
  IsComparison op = true ->
  Expression_FieldType (Identifier field) ftd = FtString ->
  let node := BinaryExpression op (Identifier field) (StringLiteral s) in
  let diagnostics := snd (snd (Process' (NewExpressionProcessor node ftd))) in
  (tokenType (operator op) = QtkCmpGlob ->
   diagnostics =
   match glob_Compile (value s) with
   | Some _ => []
   | None =>
       [GenerateExpressionError' node
          "Argument on RHS has invalid type: %v. Allowed types are: %v"
          ["String"; "Glob"]]
   end)
  /\ (tokenType (operator op) = QtkCmpRegexp ->
      diagnostics =
      match regexp_Compile (value s) with
      | Some _ => []
      | None =>
          [GenerateExpressionError' node
             "Argument on RHS has invalid type: %v. Allowed types are: %v"
             ["String"; "Regex"]]
      end).
Proof.
  intros Hcmp Htype node diagnostics.
  unfold diagnostics. rewrite Process_logical by reflexivity.
  unfold node.
  destruct (ConvertTypes_string_field ftd op field s Hcmp Htype) as [Hconv _].
  rewrite Hconv. clear Hconv.
  apply Identifier_FieldType_fieldHasType in Htype; [| discriminate ].
  unfold fieldHasType in Htype.
  assert (Hrestricted : forall kind,
             tokenType (operator op) = kind ->
             kind = QtkCmpGlob \/ kind = QtkCmpRegexp ->
             isOperandTypeRestricted op = true).
  { intros kind Hk [-> | ->]; unfold isOperandTypeRestricted; rewrite Hk; reflexivity. }
  split; intros Hop; rewrite Hop.
  - pose proof (Hrestricted _ Hop (or_introl eq_refl)) as Hr.
    destruct (glob_Compile (value s));
      unfold Validate, determineFieldType; simpl; rewrite Hcmp, Hr;
      unfold isValidArgument, allowedTypes; rewrite Hop;
      destruct (ftd (value field)) as [ft ex]; destruct ex, ft;
      try discriminate Htype; reflexivity.
  - pose proof (Hrestricted _ Hop (or_intror eq_refl)) as Hr.
    destruct (regexp_Compile (value s));
      unfold Validate, determineFieldType; simpl; rewrite Hcmp, Hr;
      unfold isValidArgument, allowedTypes; rewrite Hop;
      destruct (ftd (value field)) as [ft ex]; destruct ex, ft;
      try discriminate Htype; reflexivity.
Qed.

(** X15. A field of type Date compared with a string literal under an
    operator that is not operand-type restricted: [Process] returns no
    diagnostic when the text parses as a date, and otherwise exactly one,
    "Attempting to compare different types", naming Date and String in
    the order of the operands. *)
Theorem date_comparison_outcome
        (ftd : FieldTypeDescriptor) (op : Operator) (field s : QueryToken) :
  IsComparison op = true ->
  isOperandTypeRestricted op = false ->
  Expression_FieldType (Identifier field) ftd = FtDate ->
  let fieldFirst := BinaryExpression op (Identifier field) (StringLiteral s) in
  let literalFirst := BinaryExpression op (StringLiteral s) (Identifier field) in
  snd (snd (Process' (NewExpressionProcessor fieldFirst ftd))) =
  match parseQueryDate time_Parse (value s) with
  | Some _ => []
  | None =>
      [GenerateExpressionError' fieldFirst
         "Attempting to compare different types - LHS Type: %v vs RHS Type: %v"
         ["Date"; "String"]]
  end
  /\ snd (snd (Process' (NewExpressionProcessor literalFirst ftd))) =
     match parseQueryDate time_Parse (value s) with
     | Some _ => []
     | None =>
         [GenerateExpressionError' literalFirst
            "Attempting to compare different types - LHS Type: %v vs RHS Type: %v"
            ["String"; "Date"]]
     end.
Proof.
  intros Hcmp Hunres Htype fieldFirst literalFirst.
  apply Identifier_FieldType_Date in Htype.
  unfold fieldFirst, literalFirst.
  rewrite !Process_logical by reflexivity.
  rewrite (ConvertTypes_date_field_first _ _ _ _ _ _ s Hcmp Htype).
  rewrite (ConvertTypes_date_literal_first _ _ _ _ _ _ s Hcmp Htype).
  unfold fieldHasType in Htype.
  destruct (parseQueryDate time_Parse (value s));
    unfold Validate, determineFieldType; simpl; rewrite Hcmp, Hunres;
    destruct (ftd (value field)) as [ft ex]; destruct ex, ft;
    try discriminate Htype; split; reflexivity.
Qed.

(** *** The literal that replaces a string literal *)


End MoreProperties.

(** *** The tables *)

(** X17. Every field type has a name, the names are not empty and no two
    types share one; so the list of names in a diagnostic names every
    type of the list, in order, separated by ", ". *)
Theorem fieldTypeNames_total_and_distinct :
  (forall t, exists name,
      mapLookup FieldType_eq_dec fieldTypeNames t = Some name /\ name <> "")
  /\ (forall a b, fieldTypeName a = fieldTypeName b -> a = b)
  /\ (forall types, fieldTypeNamesString types = Join (map fieldTypeName types) ", ").
Proof.
  split; [| split ].
  - intros t. destruct t; eexists; (split; [ reflexivity | discriminate ]).
  - intros a b. destruct a, b; intros H; try reflexivity; discriminate H.
  - intros types. unfold fieldTypeNamesString. f_equal.
    induction types as [| t types IH]; [ reflexivity |].
    cbn [flat_map map]. rewrite IH. destruct t; reflexivity.
Qed.

(** X18. The types [allowedTypes] lists for a side of a restricted
    operator are exactly the types [isValidArgument] accepts on that
    side; for an operator that is not restricted every type is
    accepted. *)
Theorem allowedTypes_are_the_valid_arguments
        (op : Operator) (side : binaryOperatorPosition) (t : FieldType) :
  isValidArgument op side t = true <->
  isOperandTypeRestricted op = false \/ In t (allowedTypes op side).
Proof.
  unfold isValidArgument, isOperandTypeRestricted, allowedTypes.
  destruct op as [[kind text from to]]; simpl.
  destruct kind; simpl; try (split; [ intros _; left; reflexivity | reflexivity ]);
    destruct side, t; simpl; split; intros H;
    try reflexivity; try discriminate H;
    try (right; left; reflexivity);
    destruct H as [H | [H | []]]; discriminate H.
Qed.

(** *** The further properties on concrete inputs *)

Lemma Min_greatest_lower_bound_witness :
  (2 <= 3)%Z /\ (2 <= 5)%Z /\ (2 <= Min 3 5)%Z.
Proof.
  assert (H3 : (2 <= 3)%Z) by lia. assert (H5 : (2 <= 5)%Z) by lia.
  split; [ exact H3 | split; [ exact H5 | ] ].
  destruct (Min_greatest_lower_bound 3 5) as (_ & _ & _ & H & _).
  exact (H 2%Z H3 H5).
Defined.

(** [name GLOB "a*"] and ["a*" GLOB name]. *)
Lemma string_field_inference_witness :
  IsComparison Env.opGlob = true
  /\ Expression_FieldType (Identifier Env.nameTok) Env.oracle = FtString
  /\ Env.ConvertTypes
       (BinaryExpression Env.opGlob (Identifier Env.nameTok) (StringLiteral Env.globTok))
       Env.oracle =
     BinaryExpression Env.opGlob (Identifier Env.nameTok)
       (GlobLiteral (mkGlob "a*") Env.globTok)
  /\ Env.ConvertTypes
       (BinaryExpression Env.opGlob (StringLiteral Env.globTok) (Identifier Env.nameTok))
       Env.oracle =
     BinaryExpression Env.opGlob (GlobLiteral (mkGlob "a*") Env.globTok)
       (Identifier Env.nameTok).
Proof.
  split; [ reflexivity | split; [ reflexivity | ] ].
  exact (string_field_inference Env.time_Parse Env.glob_Compile Env.regexp_Compile
           Env.oracle Env.opGlob Env.nameTok Env.globTok eq_refl eq_refl).
Defined.

(** [created >= "2021-01-01"] under two oracles that differ on [author]
    only. *)
Lemma oracle_relevance_witness :
  (forall name,
      In name (fieldNames (BinaryExpression Env.opGe (Identifier Env.createdTok)
                             (StringLiteral Env.dateTok))) ->
      Env.oracle name = Env.otherOracle name)
  /\ Env.oracle "author" <> Env.otherOracle "author"
  /\ snd (Env.Process
            (NewExpressionProcessor
               (BinaryExpression Env.opGe (Identifier Env.createdTok)
                  (StringLiteral Env.dateTok)) Env.oracle)) =
     snd (Env.Process
            (NewExpressionProcessor
               (BinaryExpression Env.opGe (Identifier Env.createdTok)
                  (StringLiteral Env.dateTok)) Env.otherOracle)).
Proof.
  assert (Hagree : forall name,
             In name (fieldNames (BinaryExpression Env.opGe (Identifier Env.createdTok)
                                    (StringLiteral Env.dateTok))) ->
             Env.oracle name = Env.otherOracle name).
  { intros name [<- | []]. reflexivity. }
  split; [ exact Hagree | split; [ discriminate | ] ].
  exact (proj2 (proj2 (oracle_relevance Env.time_Parse Env.glob_Compile
                         Env.regexp_Compile Env.parserPos _ _ _ Hagree))).
Defined.

(** [count = "literal"]: the only field named is a Number. *)
Lemma ConvertTypes_needs_date_or_string_field_witness :
  (forall name t,
      In name (fieldNames (BinaryExpression Env.opEq (Identifier Env.countTok)
                             (StringLiteral Env.literalTok))) ->
      Env.oracle name = (t, true) -> t <> FtDate /\ t <> FtString)
  /\ Env.ConvertTypes
       (BinaryExpression Env.opEq (Identifier Env.countTok)
          (StringLiteral Env.literalTok)) Env.oracle =
     BinaryExpression Env.opEq (Identifier Env.countTok) (StringLiteral Env.literalTok).
Proof.
  assert (Hfields : forall name t,
             In name (fieldNames (BinaryExpression Env.opEq (Identifier Env.countTok)
                                    (StringLiteral Env.literalTok))) ->
             Env.oracle name = (t, true) -> t <> FtDate /\ t <> FtString).
  { intros name t [<- | []] H. injection H as <-. split; discriminate. }
  split; [ exact Hfields | ].
  exact (ConvertTypes_needs_date_or_string_field Env.time_Parse Env.glob_Compile
           Env.regexp_Compile _ _ Hfields).
Defined.

(** [count = 5] is well typed, so it validates without diagnostics. *)
Lemma Validate_empty_iff_well_typed_witness :
  isLogicalExpression
    (BinaryExpression Env.opEq (Identifier Env.countTok) (NumberLiteral Env.numberTok))
  = true
  /\ WellTyped Env.oracle
       (BinaryExpression Env.opEq (Identifier Env.countTok)
          (NumberLiteral Env.numberTok)).
Proof.
  split; [ reflexivity | ].
  apply (Validate_empty_iff_well_typed Env.parserPos Env.oracle
           (BinaryExpression Env.opEq (Identifier Env.countTok)
              (NumberLiteral Env.numberTok)) eq_refl).
  reflexivity.
Defined.

(** [nope = "literal"]: one diagnostic, so the converted tree is not
    well typed. *)
Lemma Process_no_diagnostics_witness :
  snd (snd (Env.Process
              (NewExpressionProcessor
                 (BinaryExpression Env.opEq (Identifier Env.unknownTok)
                    (StringLiteral Env.literalTok)) Env.oracle))) <> []
  /\ ~ WellTyped Env.oracle
        (BinaryExpression Env.opEq (Identifier Env.unknownTok)
           (StringLiteral Env.literalTok)).
Proof.
  assert (Hd : snd (snd (Env.Process
                           (NewExpressionProcessor
                              (BinaryExpression Env.opEq (Identifier Env.unknownTok)
                                 (StringLiteral Env.literalTok)) Env.oracle))) <> [])
    by discriminate.
  split; [ exact Hd | ].
  intros Hwt. apply Hd.
  apply (proj1 (Process_no_diagnostics Env.time_Parse Env.glob_Compile
                  Env.regexp_Compile Env.parserPos
                  (NewExpressionProcessor
                     (BinaryExpression Env.opEq (Identifier Env.unknownTok)
                        (StringLiteral Env.literalTok)) Env.oracle))).
  split; [ reflexivity | exact Hwt ].
Defined.

(** The diagnostic of [nope = "literal"] is generated for the
    identifier. *)
Lemma diagnostics_are_positioned_in_the_tree_witness :
  In "1:1: Invalid field: nope"
     (Env.Validate
        (BinaryExpression Env.opEq (Identifier Env.unknownTok)
           (StringLiteral Env.literalTok)) Env.oracle)
  /\ exists node errorMessage args,
      SubExpression node
        (BinaryExpression Env.opEq (Identifier Env.unknownTok)
           (StringLiteral Env.literalTok))
      /\ isValidatableExpression node = true
      /\ "1:1: Invalid field: nope" =
         GenerateExpressionError Env.parserPos node errorMessage args.
Proof.
  assert (Hin : In "1:1: Invalid field: nope"
                   (Env.Validate
                      (BinaryExpression Env.opEq (Identifier Env.unknownTok)
                         (StringLiteral Env.literalTok)) Env.oracle))
    by (left; reflexivity).
  split; [ exact Hin | ].
  exact (diagnostics_are_positioned_in_the_tree Env.parserPos Env.oracle _ _ Hin).
Defined.

(** [(nope = "literal") AND "literal"]: the unknown field of the left
    operand is reported although the right operand is not logical. *)
Lemma logical_subexpressions_are_validated_witness :
  let inner :=
    BinaryExpression Env.opEq (Identifier Env.unknownTok) (StringLiteral Env.literalTok) in
  let outer := BinaryExpression Env.opAnd inner (StringLiteral Env.literalTok) in
  SubExpression inner outer
  /\ isLogicalExpression inner = true
  /\ In "1:1: Invalid field: nope" (Env.Validate outer Env.oracle).
Proof.
  intros inner outer.
  assert (Hsub : SubExpression inner outer) by (apply SubLhs, SubHere).
  split; [ exact Hsub | split; [ reflexivity | ] ].
  apply (logical_subexpressions_are_validated Env.parserPos Env.oracle inner outer
           Hsub eq_refl).
  left; reflexivity.
Defined.

(** [name REGEXP "(a"]: the text does not compile. *)
Lemma pattern_match_outcome_witness :
  IsComparison Env.opRegexp = true
  /\ Expression_FieldType (Identifier Env.nameTok) Env.oracle = FtString
  /\ tokenType (operator Env.opRegexp) = QtkCmpRegexp
  /\ snd (snd (Env.Process
                 (NewExpressionProcessor
                    (BinaryExpression Env.opRegexp (Identifier Env.nameTok)
                       (StringLiteral Env.badRegexTok)) Env.oracle))) =
     ["1:6: Argument on RHS has invalid type: String. Allowed types are: Regex"].
Proof.
  split; [ reflexivity | split; [ reflexivity | split; [ reflexivity | ] ] ].
  destruct (pattern_match_outcome Env.time_Parse Env.glob_Compile Env.regexp_Compile
              Env.parserPos Env.oracle Env.opRegexp Env.nameTok Env.badRegexTok
              eq_refl eq_refl) as [_ H].
  exact (H eq_refl).
Defined.

(** ["2021-13-01" = created]: the text does not parse. *)
Lemma date_comparison_outcome_witness :
  IsComparison Env.opEq = true
  /\ isOperandTypeRestricted Env.opEq = false
  /\ Expression_FieldType (Identifier Env.createdTok) Env.oracle = FtDate
  /\ snd (snd (Env.Process
                 (NewExpressionProcessor
                    (BinaryExpression Env.opEq (StringLiteral Env.badDateTok)
                       (Identifier Env.createdTok)) Env.oracle))) =
     ["1:9: Attempting to compare different types - LHS Type: String vs RHS Type: Date"].
Proof.
  split; [ reflexivity | split; [ reflexivity | split; [ reflexivity | ] ] ].
  exact (proj2 (date_comparison_outcome Env.time_Parse Env.glob_Compile
                  Env.regexp_Compile Env.parserPos Env.oracle Env.opEq
                  Env.createdTok Env.badDateTok eq_refl eq_refl eq_refl)).
Defined.


Lemma fieldTypeNames_total_and_distinct_witness :
  fieldTypeName FtGlob = fieldTypeName FtGlob /\ FtGlob = FtGlob.
Proof.
  split; [ reflexivity | ].
  exact (proj1 (proj2 fieldTypeNames_total_and_distinct) FtGlob FtGlob eq_refl).
Defined.
